(** * Storefront client controller (static/js/main.js)

    A shallow embedding of the cart/order client script: the validation
    helpers (regular expressions over UTF-16 code units), the price
    formatter (binary64 numbers as exact rationals), and the four
    fetch-based operations with their promise handlers, run over an
    explicit model of the page. *)

From Stdlib Require Import ZArith QArith Qabs Qround Qpower List Lia Lqa String Ascii Bool.
From stdpp Require Import gmap.
Import ListNotations.

Local Open Scope Z_scope.

(** ** Strings

    A JavaScript string is a sequence of UTF-16 code units. *)

Definition char := N.
Definition jsstring := list char.

Definition char_of_ascii (a : ascii) : char := N_of_ascii a.

Fixpoint lit (s : string) : jsstring :=
  match s with
  | EmptyString => []
  | String a s' => char_of_ascii a :: lit s'
  end.

Definition is_digit (c : char) : bool := ((48 <=? c) && (c <=? 57))%N.

(** [\s] of the regular expression language, which is also the set that
    [trim], [parseInt] and [parseFloat] strip: WhiteSpace and
    LineTerminator code points. *)
Definition is_space (c : char) : bool :=
  ((9 <=? c) && (c <=? 13) || (c =? 32) || (c =? 160) || (c =? 5760)
   || (8192 <=? c) && (c <=? 8202) || (c =? 8232) || (c =? 8233)
   || (c =? 8239) || (c =? 8287) || (c =? 12288) || (c =? 65279))%N.

Definition at_sign : char := 64%N.
Definition full_stop : char := 46%N.

Fixpoint drop_while (p : char -> bool) (s : jsstring) : jsstring :=
  match s with
  | [] => []
  | c :: s' => if p c then drop_while p s' else s
  end.

Definition trim_start (s : jsstring) : jsstring := drop_while is_space s.
Definition trim_end (s : jsstring) : jsstring := rev (drop_while is_space (rev s)).
Definition trim (s : jsstring) : jsstring := trim_end (trim_start s).

(** ** Regular expressions

    The fragment the script uses: character classes, concatenation and
    repetition.  [Alt] and [Empty] are there for the derivatives. *)

Inductive regex : Type :=
| Empty : regex
| Eps : regex
| Class (p : char -> bool) : regex
| Cat (r1 r2 : regex) : regex
| Alt (r1 r2 : regex) : regex
| Star (r : regex) : regex.

Definition Plus (r : regex) : regex := Cat r (Star r).

Fixpoint Repeat (n : nat) (r : regex) : regex :=
  match n with
  | O => Eps
  | S n' => Cat r (Repeat n' r)
  end.

Inductive matches : regex -> jsstring -> Prop :=
| MEps : matches Eps []
| MClass p c : p c = true -> matches (Class p) [c]
| MCat r1 r2 s1 s2 : matches r1 s1 -> matches r2 s2 -> matches (Cat r1 r2) (s1 ++ s2)
| MAltL r1 r2 s : matches r1 s -> matches (Alt r1 r2) s
| MAltR r1 r2 s : matches r2 s -> matches (Alt r1 r2) s
| MStarNil r : matches (Star r) []
| MStarApp r s1 s2 : matches r s1 -> matches (Star r) s2 -> matches (Star r) (s1 ++ s2).

Fixpoint nullable (r : regex) : bool :=
  match r with
  | Empty => false
  | Eps => true
  | Class _ => false
  | Cat r1 r2 => nullable r1 && nullable r2
  | Alt r1 r2 => nullable r1 || nullable r2
  | Star _ => true
  end.

Fixpoint deriv (c : char) (r : regex) : regex :=
  match r with
  | Empty => Empty
  | Eps => Empty
  | Class p => if p c then Eps else Empty
  | Cat r1 r2 =>
      if nullable r1 then Alt (Cat (deriv c r1) r2) (deriv c r2)
      else Cat (deriv c r1) r2
  | Alt r1 r2 => Alt (deriv c r1) (deriv c r2)
  | Star r1 => Cat (deriv c r1) (Star r1)
  end.

(** [re.test(s)] for a pattern written [/^r$/] (no flags): the anchors
    bind to the two ends of the input, so the test succeeds exactly when
    the whole of [s] is in the language of [r]. *)
Fixpoint test_anchored (r : regex) (s : jsstring) : bool :=
  match s with
  | [] => nullable r
  | c :: s' => test_anchored (deriv c r) s'
  end.

(** [s.replace(/cls/g, rep)] for a pattern that is a single character
    class: every code unit in the class is replaced by [rep]. *)
Fixpoint replace_class (cls : char -> bool) (rep : jsstring) (s : jsstring) : jsstring :=
  match s with
  | [] => []
  | c :: s' => (if cls c then rep else [c]) ++ replace_class cls rep s'
  end.

(** ** Validation helpers *)

Definition not_space_at (c : char) : bool := negb (is_space c || (c =? at_sign)%N).
Definition non_digit (c : char) : bool := negb (is_digit c).

(** [/^[^\s@]+@[^\s@]+\.[^\s@]+$/] *)
Definition re_email : regex :=
  Cat (Plus (Class not_space_at))
    (Cat (Class (N.eqb at_sign))
       (Cat (Plus (Class not_space_at))
          (Cat (Class (N.eqb full_stop))
             (Plus (Class not_space_at))))).

Definition validateEmail (email : jsstring) : bool := test_anchored re_email email.

(** [/^\d{10}$/] *)
Definition re_phone : regex := Repeat 10 (Class is_digit).

Definition validatePhone (phone : jsstring) : bool :=
  test_anchored re_phone (replace_class non_digit [] phone).

(** The specification's reading of the phone check: strip every character
    that is not a digit, keep the rest. *)
Definition strip_non_digits (s : jsstring) : jsstring := List.filter is_digit s.

(** ** Numbers

    A Number is a binary64 value.  The finite ones are modelled by the
    rational they denote (the two zeros are not told apart: no operation
    of the script distinguishes them).  A rational [q] is a binary64 value
    when it is [m * 2^e] for integers [|m| < 2^53] and
    [-1074 <= e <= 971]; below, [e] is written [k - 1074]. *)

Inductive number : Type :=
| NaN : number
| Inf (negative : bool) : number
| Fin (q : Q) : number.

Definition scale_pos : positive := (2 ^ 1074)%positive.
Definition scale : Z := Zpos scale_pos.

Definition binary64 (q : Q) : Prop :=
  exists m k : Z,
    Z.abs m < 2 ^ 53 /\ 0 <= k <= 2045 /\ (q == (m * 2 ^ k) # scale_pos)%Q.

(** The integer nearest to [a / b] ([b > 0]), ties to the even one. *)
Definition round_half_even (a b : Z) : Z :=
  let d := a / b in
  match 2 * (a mod b) ?= b with
  | Lt => d
  | Gt => d + 1
  | Eq => if Z.even d then d else d + 1
  end.

(** For a rational [a / b >= 0], the binary64 value nearest to it (ties
    to even), in units of [2^-1074]: the value is rounded to a multiple
    of [2^k], where [k] leaves 53 significant bits. *)
Definition nearest_scaled (a b : Z) : Z :=
  let t := (a * scale) / b in
  let k := Z.max 0 (Z.log2 t - 52) in
  round_half_even (a * scale) (b * 2 ^ k) * 2 ^ k.

(** The Number value for a real: round to nearest, ties to even,
    overflowing to an infinity from [2^1024 - 2^970] on.  The result is
    kept in lowest terms. *)
Definition round_double (q : Q) : number :=
  let q := Qred q in
  let n := nearest_scaled (Z.abs (Qnum q)) (Zpos (Qden q)) in
  if 2 ^ 2098 <=? n then Inf (Qnum q <? 0)
  else Fin (Qred ((Z.sgn (Qnum q) * n) # scale_pos)).

Definition Qltb (x y : Q) : bool := negb (Qle_bool y x).

(** [x < y] on Numbers. *)
Definition num_lt (x y : number) : bool :=
  match x, y with
  | NaN, _ | _, NaN => false
  | Inf nx, Inf ny => nx && negb ny
  | Inf nx, Fin _ => nx
  | Fin _, Inf ny => negb ny
  | Fin p, Fin q => Qltb p q
  end.

(** ToBoolean on Numbers: zero and NaN are falsy. *)
Definition num_truthy (x : number) : bool :=
  match x with
  | NaN => false
  | Inf _ => true
  | Fin q => negb (Qeq_bool q 0)
  end.

(** ** Reading integers: [parseInt(s)] with no radix argument

    White space and a sign are skipped, "0x" or "0X" selects radix 16, and
    the longest run of digits is read; the integer is then rounded to a
    Number (all its digits count). *)

Definition digit_value (c : char) : Z := Z.of_N c - 48.

Definition is_hex_digit (c : char) : bool :=
  (is_digit c || (65 <=? c) && (c <=? 70) || (97 <=? c) && (c <=? 102))%N.

Definition hex_value (c : char) : Z :=
  if is_digit c then Z.of_N c - 48
  else if (c <=? 70)%N then Z.of_N c - 55
  else Z.of_N c - 87.

Fixpoint take_while (p : char -> bool) (s : jsstring) : jsstring :=
  match s with
  | [] => []
  | c :: s' => if p c then c :: take_while p s' else []
  end.

(** The integer written by a digit string, most significant digit first. *)
Definition digits_value (radix : Z) (val : char -> Z) (ds : jsstring) : Z :=
  fold_left (fun acc c => acc * radix + val c) ds 0.

Definition plus_sign : char := 43%N.
Definition minus_sign : char := 45%N.

Definition strip_sign (s : jsstring) : bool * jsstring :=
  match s with
  | c :: s' =>
      if (c =? minus_sign)%N then (true, s')
      else if (c =? plus_sign)%N then (false, s')
      else (false, s)
  | [] => (false, [])
  end.

Definition parseInt (input : jsstring) : number :=
  let (negative, s) := strip_sign (trim_start input) in
  let (hex, s) :=
    match s with
    | 48%N :: x :: s' => if ((x =? 120) || (x =? 88))%N then (true, s') else (false, s)
    | _ => (false, s)
    end in
  let z := take_while (if hex then is_hex_digit else is_digit) s in
  match z with
  | [] => NaN
  | _ =>
      let mathInt :=
        if hex then digits_value 16 hex_value z else digits_value 10 digit_value z in
      round_double (inject_Z (if negative then - mathInt else mathInt))
  end.

(** ** Writing and reading decimal numbers *)

Definition digit_char (d : Z) : char := Z.to_N (d + 48).

Fixpoint decimal_rev (fuel : nat) (n : Z) : jsstring :=
  match fuel with
  | O => []
  | S fuel' =>
      if n <? 10 then [digit_char n]
      else digit_char (n mod 10) :: decimal_rev fuel' (n / 10)
  end.

(** The digits of the decimal representation of [n >= 0], no leading
    zero ("0" for 0). *)
Definition decimal (n : Z) : jsstring :=
  rev (decimal_rev (S (Z.to_nat (Z.log2 n))) n).

Definition zeros (n : Z) : jsstring := repeat 48%N (Z.to_nat n).

Definition len (s : jsstring) : Z := Z.of_nat (length s).

(** *** Number::toString, radix 10

    For a finite [x > 0] the language asks for integers [n], [k],
    [s] with [k >= 1], [10^(k-1) <= s < 10^k] and [s * 10^(n-k)] rounding
    to [x], with [k] as small as possible; when the last digit of [s] is
    not determined by this, the [s] nearest to [x] is taken. *)

(** The [n] with [10^(n-1) <= x < 10^n], for [x >= 10^-400]. *)
Definition decimal_exponent (x : Q) : Z :=
  len (decimal (Qfloor (x * 10 ^ 400)%Q)) - 400.

Definition candidate_value (c : Z * Z * Z) : Q :=
  let '(n, k, s) := c in (inject_Z s * 10 ^ (n - k))%Q.

Definition candidate_ok (x : Q) (c : Z * Z * Z) : bool :=
  let '(n, k, s) := c in
  (10 ^ (k - 1) <=? s) && (s <? 10 ^ k) &&
  match round_double (candidate_value c) with
  | Fin y => Qeq_bool y x
  | _ => false
  end.

Definition closer (x : Q) (c1 c2 : Z * Z * Z) : Z * Z * Z :=
  let d1 := Qabs (candidate_value c1 - x)%Q in
  let d2 := Qabs (candidate_value c2 - x)%Q in
  if Qltb d1 d2 then c1
  else if Qltb d2 d1 then c2
  else if Z.even (snd c1) then c1 else c2.

Fixpoint shortest (fuel : nat) (x : Q) (n0 k : Z) : Z * Z * Z :=
  match fuel with
  | O => (n0, k, 0)
  | S fuel' =>
      let lo := Qfloor (x / 10 ^ (n0 - k))%Q in
      let c1 := (n0, k, lo) in
      let c2 := if lo + 1 <? 10 ^ k then (n0, k, lo + 1) else (n0 + 1, k, 10 ^ (k - 1)) in
      match candidate_ok x c1, candidate_ok x c2 with
      | true, true => closer x c1 c2
      | true, false => c1
      | false, true => c2
      | false, false => shortest fuel' x n0 (k + 1)
      end
  end.

Definition exponent_string (e : Z) : jsstring :=
  lit "e" ++ (if e <? 0 then lit "-" else lit "+") ++ decimal (Z.abs e).

Definition format_number (c : Z * Z * Z) : jsstring :=
  let '(n, k, s) := c in
  let ds := decimal s in
  if (k <=? n) && (n <=? 21) then ds ++ zeros (n - k)
  else if (0 <? n) && (n <=? 21) then
    firstn (Z.to_nat n) ds ++ lit "." ++ skipn (Z.to_nat n) ds
  else if (-6 <? n) && (n <=? 0) then lit "0." ++ zeros (- n) ++ ds
  else if k =? 1 then ds ++ exponent_string (n - 1)
  else firstn 1 ds ++ lit "." ++ skipn 1 ds ++ exponent_string (n - 1).

Definition number_to_string (x : number) : jsstring :=
  match x with
  | NaN => lit "NaN"
  | Inf negative => if negative then lit "-Infinity" else lit "Infinity"
  | Fin q =>
      let q := Qred q in
      if Qeq_bool q 0 then lit "0"
      else
        let x := Qabs q in
        let n0 := decimal_exponent x in
        (if Qltb q 0 then lit "-" else []) ++
        format_number (shortest (Z.to_nat (n0 + 1074)) x n0 1)
  end.

(** *** parseFloat on a string

    Leading white space is skipped, then the longest prefix that is a
    decimal literal is read: a sign, then "Infinity" or digits with an
    optional fraction and an optional exponent.  The value read is
    rounded to a Number (all its digits count). *)

Fixpoint starts_with (prefix s : jsstring) : bool :=
  match prefix, s with
  | [], _ => true
  | c :: prefix', d :: s' => (c =? d)%N && starts_with prefix' s'
  | _ :: _, [] => false
  end.

Definition is_exponent_indicator (c : char) : bool := ((c =? 101) || (c =? 69))%N.

(** The exponent part at the head of [s], if there is one: [e] or [E], an
    optional sign and at least one digit. *)
Definition exponent_part (s : jsstring) : Z :=
  match s with
  | c :: s' =>
      if is_exponent_indicator c then
        let (negative, s'') := strip_sign s' in
        match take_while is_digit s'' with
        | [] => 0
        | ds => let e := digits_value 10 digit_value ds in if negative then - e else e
        end
      else 0
  | [] => 0
  end.

(** The fraction part at the head of [s] (a full stop and the digits
    after it), and what follows it. *)
Definition fraction_part (s : jsstring) : jsstring * jsstring :=
  match s with
  | c :: s' =>
      if (c =? full_stop)%N then
        let f := take_while is_digit s' in (f, skipn (length f) s')
      else ([], s)
  | [] => ([], [])
  end.

(** The value of the longest prefix of [s] that is an unsigned decimal
    literal other than "Infinity"; [None] when there is no such prefix. *)
Definition unsigned_literal (s : jsstring) : option Q :=
  let int_part := take_while is_digit s in
  let '(frac_part, rest) := fraction_part (skipn (length int_part) s) in
  match int_part ++ frac_part with
  | [] => None
  | ds => Some (inject_Z (digits_value 10 digit_value ds)
                * 10 ^ (exponent_part rest - len frac_part))%Q
  end.

Definition parseFloat_str (input : jsstring) : number :=
  let (negative, s) := strip_sign (trim_start input) in
  if starts_with (lit "Infinity") s then Inf negative
  else
    match unsigned_literal s with
    | None => NaN
    | Some mv => round_double (if negative then (- mv)%Q else mv)
    end.

(** ** Values

    What a JSON reply can hold, plus [undefined] (the result of reading a
    property that is not there). *)

#[local] Unset Elimination Schemes.
Inductive value : Type :=
| VUndef : value
| VNull : value
| VBool (b : bool) : value
| VNum (x : number) : value
| VStr (s : jsstring) : value
| VArr (items : list value) : value
| VObj (fields : list (jsstring * value)) : value.
#[local] Set Elimination Schemes.

(** ToBoolean. *)
Definition truthy (v : value) : bool :=
  match v with
  | VUndef | VNull => false
  | VBool b => b
  | VNum x => num_truthy x
  | VStr s => match s with [] => false | _ => true end
  | VArr _ | VObj _ => true
  end.

Definition jsstring_eqb (a b : jsstring) : bool := bool_decide (a = b).

Fixpoint lookup_field (name : jsstring) (fields : list (jsstring * value)) : value :=
  match fields with
  | [] => VUndef
  | (k, v) :: rest => if jsstring_eqb k name then v else lookup_field name rest
  end.

Inductive error : Type :=
| TypeError : error          (* property access on null or undefined; fetch rejected *)
| SyntaxError : error        (* the reply body is not JSON *)
| SelectorSyntaxError : error.   (* DOMException SyntaxError: querySelector on a text that is no selector *)

Inductive outcome (A : Type) : Type :=
| Ok (a : A) : outcome A
| Throw (e : error) : outcome A.
Arguments Ok {A} a.
Arguments Throw {A} e.

(** [v.name] for one of the names the script reads ([success], [count],
    [message]): a TypeError on [null] and [undefined], the field of an
    object, [undefined] on everything else. *)
Definition get_prop (v : value) (name : jsstring) : outcome value :=
  match v with
  | VUndef | VNull => Throw TypeError
  | VObj fields => Ok (lookup_field name fields)
  | _ => Ok VUndef
  end.

(** [a || b] *)
Definition or_else (a b : value) : value := if truthy a then a else b.

(** ToString.  (An object that defines its own [toString] is not
    modelled.) *)
Fixpoint to_string (v : value) : jsstring :=
  match v with
  | VUndef => lit "undefined"
  | VNull => lit "null"
  | VBool b => if b then lit "true" else lit "false"
  | VNum x => number_to_string x
  | VStr s => s
  | VArr items =>
      let item_string i :=
        match i with VUndef | VNull => [] | _ => to_string i end in
      match List.map item_string items with
      | [] => []
      | first :: others => fold_left (fun acc t => acc ++ lit "," ++ t) others first
      end
  | VObj _ => lit "[object Object]"
  end.

Definition parseFloat (v : value) : number := parseFloat_str (to_string v).

(** ** Number.prototype.toFixed with two fraction digits *)

(** The integer [n] for which [n / 100] is nearest to [x], the larger
    one when two are as near. *)
Definition hundredths (x : Q) : Z := Qfloor (x * 100 + (1 # 2))%Q.

(** The digits of [n], padded with zeros to three at least, with a full
    stop before the last two. *)
Definition fixed_digits (n : Z) : jsstring :=
  let m := decimal n in
  let m := if len m <=? 2 then zeros (3 - len m) ++ m else m in
  let k := len m in
  firstn (Z.to_nat (k - 2)) m ++ lit "." ++ skipn (Z.to_nat (k - 2)) m.

Definition toFixed2 (x : number) : jsstring :=
  match x with
  | NaN | Inf _ => number_to_string x
  | Fin q =>
      let q := Qred q in
      let s := if Qltb q 0 then lit "-" else [] in
      let x := Qabs q in
      if Qle_bool (10 ^ 21)%Q x then s ++ number_to_string (Fin x)
      else s ++ fixed_digits (hundredths x)
  end.

(** ** The price formatter *)

Definition formatPrice (price : value) : jsstring :=
  lit "$" ++ toFixed2 (parseFloat price).

(** A formatted price without its currency symbol. *)
Definition numeric_part (formatted : jsstring) : jsstring := skipn 1 formatted.

(** The specification's shape of a formatted price, as a pattern: the
    currency symbol, digits, a full stop and exactly two more digits,
    [/^\$\d+\.\d{2}$/]. *)
Definition re_price : regex :=
  Cat (Class (N.eqb 36))
    (Cat (Plus (Class is_digit))
       (Cat (Class (N.eqb full_stop)) (Repeat 2 (Class is_digit)))).

Definition two_decimal_price (s : jsstring) : bool := test_anchored re_price s.

(** ** JSON.stringify

    The text [JSON.stringify(v)] with no replacer and no indentation;
    [None] is [undefined].  The names of an object are written in the
    order of the list, which is the order of the properties of an object
    literal whose names are distinct and no array indices, as those the
    script serialises are. *)

Definition quotation_mark : char := 34%N.
Definition reverse_solidus : char := 92%N.

Definition hex_digit (d : N) : char := (if d <? 10 then 48 + d else 87 + d)%N.

(** A backslash, "u" and the four lower-case hexadecimal digits of [c]. *)
Definition UnicodeEscape (c : char) : jsstring :=
  [reverse_solidus; 117%N;
   hex_digit (c / 4096 mod 16); hex_digit (c / 256 mod 16);
   hex_digit (c / 16 mod 16); hex_digit (c mod 16)].

Definition is_leading_surrogate (c : char) : bool := ((55296 <=? c) && (c <=? 56319))%N.
Definition is_trailing_surrogate (c : char) : bool := ((56320 <=? c) && (c <=? 57343))%N.

(** A code unit that is not half of a surrogate pair, as QuoteJSONString
    writes it. *)
Definition escape_unit (c : char) : jsstring :=
  if (c =? 8)%N then [reverse_solidus; 98%N]
  else if (c =? 9)%N then [reverse_solidus; 116%N]
  else if (c =? 10)%N then [reverse_solidus; 110%N]
  else if (c =? 12)%N then [reverse_solidus; 102%N]
  else if (c =? 13)%N then [reverse_solidus; 114%N]
  else if (c =? quotation_mark)%N then [reverse_solidus; quotation_mark]
  else if (c =? reverse_solidus)%N then [reverse_solidus; reverse_solidus]
  else if (c <? 32)%N || is_leading_surrogate c || is_trailing_surrogate c
       then UnicodeEscape c
  else [c].

Fixpoint quote_units (s : jsstring) : jsstring :=
  match s with
  | [] => []
  | c :: s' =>
      match s' with
      | d :: s'' =>
          if is_leading_surrogate c && is_trailing_surrogate d
          then c :: d :: quote_units s''
          else escape_unit c ++ quote_units s'
      | [] => escape_unit c
      end
  end.

Definition QuoteJSONString (s : jsstring) : jsstring :=
  quotation_mark :: quote_units s ++ [quotation_mark].

Fixpoint join_comma (l : list jsstring) : jsstring :=
  match l with
  | [] => []
  | t :: rest => match rest with [] => t | _ => t ++ lit "," ++ join_comma rest end
  end.

(** A Number in JSON: its decimal text when it is finite, [null] for NaN
    and the infinities. *)
Definition json_number (x : number) : jsstring :=
  match x with
  | Fin _ => number_to_string x
  | NaN | Inf _ => lit "null"
  end.

Fixpoint JSON_stringify (v : value) : option jsstring :=
  match v with
  | VUndef => None
  | VNull => Some (lit "null")
  | VBool b => Some (if b then lit "true" else lit "false")
  | VNum x => Some (json_number x)
  | VStr s => Some (QuoteJSONString s)
  | VArr items =>
      let item i := match JSON_stringify i with Some t => t | None => lit "null" end in
      Some (lit "[" ++ join_comma (List.map item items) ++ lit "]")
  | VObj fields =>
      let member (kv : jsstring * value) :=
        let (k, x) := kv in
        match JSON_stringify x with
        | Some t => [QuoteJSONString k ++ lit ":" ++ t]
        | None => []
        end in
      Some (lit "{" ++ join_comma (List.flat_map member fields) ++ lit "}")
  end.

(** ** The page *)

Record notification : Type := {
  note_id : nat;
  className : jsstring;
  textContent : value     (* the value assigned; the element shows its string form *)
}.

(** The promise chain attached to a [fetch], with the variables its
    callbacks close over. *)
Inductive handler : Type :=
| HCartCount : handler
| HAddToCart (qtyInput : option jsstring) : handler    (* id of the quantity input, or null *)
| HUpdateQuantity : handler
| HRemoveFromCart (productId : jsstring) : handler
| HPlaceOrder : handler.

Inductive http_method : Type := GET | POST.

Record request : Type := {
  url : jsstring;
  method : http_method;
  body : option value;    (* the object handed to JSON.stringify; [payload] is the text sent *)
  chain : handler
}.

(** The text of a request's body: the serialisation of the object
    recorded in [body]. *)
Definition payload (r : request) : option jsstring :=
  match body r with
  | Some b => JSON_stringify b
  | None => None
  end.

Inductive timer_action : Type :=
| HideFlashMessages : timer_action
| RemoveNotification (id : nat) : timer_action
| Navigate (href : jsstring) : timer_action.

(** The parts of the document the script reads or writes. *)
Record dom : Type := {
  dom_inputs : gmap jsstring jsstring;
  dom_cartCount : option value;
  dom_flash : option (list notification);
  dom_cart_lines : list jsstring
}.

(** What [document.querySelector] gives: a SyntaxError for a text that
    is no selector, null, or an element.  Of an element the script only
    asks that it leave the document, so the model keeps the document
    without it. *)
Inductive selection : Type :=
| NotASelector : selection
| NoElement : selection
| Element (rest : dom) : selection.

Record page : Type := {
  inputs : gmap jsstring jsstring;        (* form controls by id, with their value *)
  cartCount : option value;               (* textContent of #cartCount, if the element exists *)
  flash : option (list notification);     (* children of .flash-messages, if it exists *)
  cart_lines : list jsstring;             (* data-product-id of the elements that have one (the cart
                                             lines, none inside another), document order *)
  selected : jsstring -> selection;       (* for a product id that is not plain (see [plain_id]): what
                                             the selector built from it gives on this page *)
  confirm_reply : bool;                   (* what the user answers to a confirm dialog *)
  dialogs : list jsstring;                (* confirm dialogs shown *)
  requests : list request;                (* fetch calls, oldest first *)
  console : list error;                   (* console.error calls *)
  timers : list (Z * timer_action);       (* setTimeout calls: delay in ms, callback *)
  reloads : nat;                          (* location.reload() calls *)
  fresh : nat                             (* next element identity *)
}.

Definition set_inputs (f : gmap jsstring jsstring -> gmap jsstring jsstring) (p : page) : page :=
  {| inputs := f (inputs p); cartCount := cartCount p; flash := flash p;
     cart_lines := cart_lines p; confirm_reply := confirm_reply p; dialogs := dialogs p;
     requests := requests p; console := console p; timers := timers p;
     reloads := reloads p; fresh := fresh p; selected := selected p |}.

Definition set_cartCount (v : option value) (p : page) : page :=
  {| inputs := inputs p; cartCount := v; flash := flash p;
     cart_lines := cart_lines p; confirm_reply := confirm_reply p; dialogs := dialogs p;
     requests := requests p; console := console p; timers := timers p;
     reloads := reloads p; fresh := fresh p; selected := selected p |}.

Definition set_flash (f : option (list notification)) (p : page) : page :=
  {| inputs := inputs p; cartCount := cartCount p; flash := f;
     cart_lines := cart_lines p; confirm_reply := confirm_reply p; dialogs := dialogs p;
     requests := requests p; console := console p; timers := timers p;
     reloads := reloads p; fresh := fresh p; selected := selected p |}.

Definition set_cart_lines (l : list jsstring) (p : page) : page :=
  {| inputs := inputs p; cartCount := cartCount p; flash := flash p;
     cart_lines := l; confirm_reply := confirm_reply p; dialogs := dialogs p;
     requests := requests p; console := console p; timers := timers p;
     reloads := reloads p; fresh := fresh p; selected := selected p |}.

Definition add_dialog (msg : jsstring) (p : page) : page :=
  {| inputs := inputs p; cartCount := cartCount p; flash := flash p;
     cart_lines := cart_lines p; confirm_reply := confirm_reply p;
     dialogs := dialogs p ++ [msg];
     requests := requests p; console := console p; timers := timers p;
     reloads := reloads p; fresh := fresh p; selected := selected p |}.

Definition add_request (r : request) (p : page) : page :=
  {| inputs := inputs p; cartCount := cartCount p; flash := flash p;
     cart_lines := cart_lines p; confirm_reply := confirm_reply p; dialogs := dialogs p;
     requests := requests p ++ [r]; console := console p; timers := timers p;
     reloads := reloads p; fresh := fresh p; selected := selected p |}.

Definition add_console (e : error) (p : page) : page :=
  {| inputs := inputs p; cartCount := cartCount p; flash := flash p;
     cart_lines := cart_lines p; confirm_reply := confirm_reply p; dialogs := dialogs p;
     requests := requests p; console := console p ++ [e]; timers := timers p;
     reloads := reloads p; fresh := fresh p; selected := selected p |}.

Definition add_timer (delay : Z) (a : timer_action) (p : page) : page :=
  {| inputs := inputs p; cartCount := cartCount p; flash := flash p;
     cart_lines := cart_lines p; confirm_reply := confirm_reply p; dialogs := dialogs p;
     requests := requests p; console := console p; timers := timers p ++ [(delay, a)];
     reloads := reloads p; fresh := fresh p; selected := selected p |}.

Definition add_reload (p : page) : page :=
  {| inputs := inputs p; cartCount := cartCount p; flash := flash p;
     cart_lines := cart_lines p; confirm_reply := confirm_reply p; dialogs := dialogs p;
     requests := requests p; console := console p; timers := timers p;
     reloads := S (reloads p); fresh := fresh p; selected := selected p |}.

Definition bump_fresh (p : page) : page :=
  {| inputs := inputs p; cartCount := cartCount p; flash := flash p;
     cart_lines := cart_lines p; confirm_reply := confirm_reply p; dialogs := dialogs p;
     requests := requests p; console := console p; timers := timers p;
     reloads := reloads p; fresh := S (fresh p); selected := selected p |}.

Definition set_dom (d : dom) (p : page) : page :=
  {| inputs := dom_inputs d; cartCount := dom_cartCount d; flash := dom_flash d;
     cart_lines := dom_cart_lines d; confirm_reply := confirm_reply p; dialogs := dialogs p;
     requests := requests p; console := console p; timers := timers p;
     reloads := reloads p; fresh := fresh p; selected := selected p |}.

(** ** Script actions: page state and exceptions *)

Definition action (A : Type) : Type := page -> outcome A * page.

#[global] Instance action_ret : MRet action := fun A a p => (Ok a, p).

#[global] Instance action_bind : MBind action := fun A B k m p =>
  match m p with
  | (Ok a, p') => k a p'
  | (Throw e, p') => (Throw e, p')
  end.

Definition throw {A} (e : error) : action A := fun p => (Throw e, p).
Definition modify (f : page -> page) : action unit := fun p => (Ok tt, f p).
Definition read {A} (f : page -> A) : action A := fun p => (Ok (f p), p).
Definition lift {A} (o : outcome A) : action A := fun p => (o, p).

(** The page an action leaves behind. *)
Definition exec {A} (m : action A) (p : page) : page := snd (m p).

(** ** Browser primitives *)

(** [fetch(url, {method, headers, body: JSON.stringify(b)}).then(...).then(...).catch(...)]
    (no [body] for a GET): the request leaves, and its chain waits for
    the reply.  The request is recorded with the object [b]; the text
    that is sent is [payload], the serialisation of [b]. *)
Definition fetch (u : jsstring) (m : http_method) (b : option value) (h : handler) : action unit :=
  modify (add_request {| url := u; method := m; body := b; chain := h |}).

(** [document.getElementById(id)] for a form control: the element (named
    by its id) or null. *)
Definition getElementById (id : jsstring) : action (option jsstring) :=
  read (fun p => match inputs p !! id with Some _ => Some id | None => None end).

(** [element.value], a TypeError when [element] is null. *)
Definition get_value (element : option jsstring) : action jsstring :=
  match element with
  | None => throw TypeError
  | Some id =>
      v ← read (fun p => inputs p !! id);
      match v with Some s => mret s | None => throw TypeError end
  end.

Definition set_value (id : jsstring) (s : jsstring) : action unit :=
  modify (set_inputs (insert id s)).

Definition console_error (e : error) : action unit := modify (add_console e).

(** [confirm(message)]: the dialog blocks until the user answers. *)
Definition confirm (message : jsstring) : action bool :=
  modify (add_dialog message);; read confirm_reply.

(** ** The script *)

Definition updateCartCount : action unit :=
  fetch (lit "/api/cart/count") GET None HCartCount.

(** The DOMContentLoaded listener. *)
Definition on_DOMContentLoaded : action unit :=
  updateCartCount;;
  modify (add_timer 5000 HideFlashMessages).

Definition createFlashContainer : action (list notification) :=
  modify (set_flash (Some []));; mret [].

Definition showNotification (message : value) (type : jsstring) : action unit :=
  id ← read fresh;
  modify bump_fresh;;
  let notification :=
    {| note_id := id;
       className := lit "flash-message flash-" ++ type;
       textContent := message |} in
  existing ← read flash;
  flashContainer ← match existing with
                   | Some children => mret children
                   | None => createFlashContainer
                   end;
  modify (set_flash (Some (flashContainer ++ [notification])));;
  modify (add_timer 3000 (RemoveNotification id)).

Definition addToCart (productId : jsstring) (quantity : option number) : action unit :=
  qtyInput ← getElementById (lit "qty-" ++ productId);
  let from_input : action number :=
    match qtyInput with
    | Some _ => v ← get_value qtyInput; mret (parseInt v)
    | None => mret (Fin 1)
    end in
  qty ← match quantity with
        | Some q => if num_truthy q then mret q else from_input
        | None => from_input
        end;
  if num_lt qty (Fin 1) then
    showNotification (VStr (lit "Please select a valid quantity")) (lit "error")
  else
    fetch (lit "/add_to_cart") POST
      (Some (VObj [(lit "product_id", VStr productId); (lit "quantity", VNum qty)]))
      (HAddToCart qtyInput).

Definition removeFromCart (productId : jsstring) : action unit :=
  yes ← confirm (lit "Remove this item from cart?");
  if negb yes then mret tt
  else
    fetch (lit "/remove_from_cart") POST
      (Some (VObj [(lit "product_id", VStr productId)]))
      (HRemoveFromCart productId).

Definition updateQuantity (productId : jsstring) (newQuantity : number) : action unit :=
  if num_lt newQuantity (Fin 1) then removeFromCart productId
  else
    fetch (lit "/update_cart") POST
      (Some (VObj [(lit "product_id", VStr productId); (lit "quantity", VNum newQuantity)]))
      HUpdateQuantity.

Definition placeOrder : action unit :=
  a ← get_value (Some (lit "deliveryAddress"));
  let address := trim a in
  ph ← get_value (Some (lit "phoneNumber"));
  let phone := trim ph in
  match address with
  | [] => showNotification (VStr (lit "Please enter delivery address")) (lit "error")
  | _ =>
      if negb (validatePhone phone) then
        showNotification (VStr (lit "Please enter a valid phone number")) (lit "error")
      else
        fetch (lit "/place_order") POST
          (Some (VObj [(lit "address", VStr address); (lit "phone", VStr phone)]))
          HPlaceOrder
  end.

(** *** Promise chains *)

(** A product id that stands for itself between the double quotes of
    a CSS string: it holds no double quote, no backslash, no line break
    (LF, FF, CR), no NUL and no surrogate code unit (a NUL or a lone
    surrogate is replaced when the selector text is read). *)
Definition plain_char (c : char) : bool :=
  negb ((c =? 0) || (c =? 10) || (c =? 12) || (c =? 13) || (c =? 34) || (c =? 92)
        || (55296 <=? c) && (c <=? 57343))%N.

Definition plain_id (productId : jsstring) : bool := forallb plain_char productId.

Fixpoint remove_first (productId : jsstring) (l : list jsstring) : option (list jsstring) :=
  match l with
  | [] => None
  | x :: l' =>
      if jsstring_eqb x productId then Some l'
      else match remove_first productId l' with
           | Some r => Some (x :: r)
           | None => None
           end
  end.

(** [document.querySelector(`[data-product-id="${productId}"]`).remove()].
    The product id is pasted into the selector as it is.  A plain id
    gives a valid selector that selects the elements whose attribute is
    exactly that id: the first of them leaves the document, and there is
    a TypeError ([.remove()] on null) when there is none.  Any other id is
    CSS syntax of its own (the end of the string, an escape, further
    selectors): the selector may be invalid, or select by another value
    or another element altogether, and what it gives is read from the
    page. *)
Definition remove_cart_line (productId : jsstring) : action unit :=
  if plain_id productId then
    l ← read cart_lines;
    match remove_first productId l with
    | Some l' => modify (set_cart_lines l')
    | None => throw TypeError
    end
  else
    found ← read (fun p => selected p productId);
    match found with
    | NotASelector => throw SelectorSyntaxError
    | NoElement => throw TypeError
    | Element rest => modify (set_dom rest)
    end.

(** The second [.then] callback of each chain, given the parsed reply. *)
Definition on_data (h : handler) (data : value) : action unit :=
  match h with
  | HCartCount =>
      badge ← read cartCount;
      count ← lift (get_prop data (lit "count"));
      match badge with
      | None => throw TypeError
      | Some _ => modify (set_cartCount (Some (or_else count (VNum (Fin 0)))))
      end
  | HAddToCart qtyInput =>
      success ← lift (get_prop data (lit "success"));
      if truthy success then
        showNotification (VStr (lit "Product added to cart!")) (lit "success");;
        updateCartCount;;
        match qtyInput with
        | Some id => set_value id (lit "1")
        | None => mret tt
        end
      else
        showNotification (VStr (lit "Error adding product to cart")) (lit "error")
  | HUpdateQuantity =>
      success ← lift (get_prop data (lit "success"));
      if truthy success then modify add_reload
      else showNotification (VStr (lit "Error updating cart")) (lit "error")
  | HRemoveFromCart productId =>
      success ← lift (get_prop data (lit "success"));
      if truthy success then
        remove_cart_line productId;;
        showNotification (VStr (lit "Item removed from cart")) (lit "success");;
        updateCartCount;;
        modify add_reload
      else
        showNotification (VStr (lit "Error removing item")) (lit "error")
  | HPlaceOrder =>
      success ← lift (get_prop data (lit "success"));
      if truthy success then
        showNotification (VStr (lit "Order placed successfully!")) (lit "success");;
        modify (add_timer 2000 (Navigate (lit "/orders")))
      else
        message ← lift (get_prop data (lit "message"));
        showNotification (or_else message (VStr (lit "Error placing order"))) (lit "error")
  end.

(** The [.catch] callback of each chain. *)
Definition on_error (h : handler) (e : error) : action unit :=
  match h with
  | HCartCount => console_error e
  | HAddToCart _ =>
      console_error e;;
      showNotification (VStr (lit "Error adding product to cart")) (lit "error")
  | HUpdateQuantity =>
      console_error e;;
      showNotification (VStr (lit "Error updating cart")) (lit "error")
  | HRemoveFromCart _ =>
      console_error e;;
      showNotification (VStr (lit "Error removing item")) (lit "error")
  | HPlaceOrder =>
      console_error e;;
      showNotification (VStr (lit "Error placing order")) (lit "error")
  end.

(** What comes back for a request. *)
Inductive reply : Type :=
| NetworkFailure : reply          (* fetch rejects *)
| NotJson : reply                 (* response.json() rejects *)
| Json (data : value) : reply.    (* response.json() resolves with the parsed body *)

(** The chain [.then(response => response.json()).then(on_data).catch(on_error)]
    run on a reply: a rejection anywhere before the catch, or an
    exception thrown in the data callback, lands in the catch callback. *)
Definition settle (h : handler) (r : reply) : action unit :=
  fun p =>
    match r with
    | NetworkFailure => on_error h TypeError p
    | NotJson => on_error h SyntaxError p
    | Json data =>
        match on_data h data p with
        | (Ok tt, p') => (Ok tt, p')
        | (Throw e, p') => on_error h e p'
        end
    end.

(** *** Observations *)

Definition is_error_notification (n : notification) : bool :=
  jsstring_eqb (className n) (lit "flash-message flash-error").

Definition is_success_notification (n : notification) : bool :=
  jsstring_eqb (className n) (lit "flash-message flash-success").

Definition notifications (p : page) : list notification :=
  match flash p with Some l => l | None => [] end.

Definition requests_to (u : jsstring) (p : page) : list request :=
  List.filter (fun r => jsstring_eqb (url r) u) (requests p).

(** A page with nothing on it: no form control, no badge, no notification
    container, no cart line, nothing for a selector to find; the user
    declines confirm dialogs. *)
Definition blank_page : page :=
  {| inputs := ∅; cartCount := None; flash := None; cart_lines := [];
     confirm_reply := false; dialogs := []; requests := []; console := [];
     timers := []; reloads := 0; fresh := 0; selected := fun _ => NoElement |}.

(** The element [showNotification(message, type)] appends on page [p]. *)
Definition new_notification (message : value) (type : jsstring) (p : page) : notification :=
  {| note_id := fresh p;
     className := lit "flash-message flash-" ++ type;
     textContent := message |}.

(** The requests the script sends. *)
Definition add_to_cart_request (productId : jsstring) (qty : number) (qtyInput : option jsstring) : request :=
  {| url := lit "/add_to_cart"; method := POST;
     body := Some (VObj [(lit "product_id", VStr productId); (lit "quantity", VNum qty)]);
     chain := HAddToCart qtyInput |}.

Definition place_order_request (address phone : jsstring) : request :=
  {| url := lit "/place_order"; method := POST;
     body := Some (VObj [(lit "address", VStr address); (lit "phone", VStr phone)]);
     chain := HPlaceOrder |}.

Definition cart_count_request : request :=
  {| url := lit "/api/cart/count"; method := GET; body := None; chain := HCartCount |}.

(** A page with the two fields of the order form filled in. *)
Definition order_form (address phone : jsstring) : page :=
  set_inputs (insert (lit "deliveryAddress") address)
    (set_inputs (insert (lit "phoneNumber") phone) blank_page).

(** *** Auxiliary notions for the proofs *)

(** The value of a digit string given least significant digit first. *)
Definition value_rev (l : jsstring) : Z :=
  fold_right (fun c acc => acc * 10 + digit_value c) 0 l.

(** What may follow the digits of a literal the writer produces: nothing,
    or an exponent. *)
Definition literal_tail (t : jsstring) (e : Z) : Prop :=
  (t = [] /\ e = 0) \/ t = exponent_string e.

(** The candidate [(n0, k, s)] with [s] the [k] leading digits of [x]. *)
Definition floor_candidate (x : Q) (n0 k : Z) : Z * Z * Z :=
  (n0, k, Qfloor (x / 10 ^ (n0 - k))%Q).

(** *** Further observations *)

(** The value of the form control with a given id, if the page has it. *)
Definition field_value (id : jsstring) (p : page) : option jsstring := inputs p !! id.

(** Whether a string starts with a decimal digit. *)
Definition head_is_digit (s : jsstring) : bool :=
  match s with c :: _ => is_digit c | [] => false end.

Definition starts_with_space (s : jsstring) : bool :=
  match s with c :: _ => is_space c | [] => false end.

Definition ends_with_space (s : jsstring) : bool := starts_with_space (rev s).

(** Whether the data callback of a chain takes its success branch on a
    reply: the body is JSON, a property can be read from it, and its
    [success] is truthy. *)
Definition reply_succeeds (r : reply) : bool :=
  match r with
  | Json data =>
      match get_prop data (lit "success") with
      | Ok success => truthy success
      | Throw _ => false
      end
  | _ => false
  end.

(** The callback of the timer [showNotification] sets,
    [() => notification.remove()]: the element with that identity leaves
    its container. *)
Definition remove_notification (id : nat) (p : page) : page :=
  match flash p with
  | Some children =>
      set_flash (Some (List.filter (fun n => negb (Nat.eqb (note_id n) id)) children)) p
  | None => p
  end.

(** Element identities handed out so far are below the next one. *)
Definition fresh_ids (p : page) : Prop :=
  Forall (fun n => (note_id n < fresh p)%nat) (notifications p).

(** No "0x" or "0X" at the head of [s]: [parseInt] stays in radix 10. *)
Definition hex_prefix_absent (s : jsstring) : Prop :=
  match s with
  | 48%N :: x :: s' => if ((x =? 120) || (x =? 88))%N then (true, s') else (false, s)
  | _ => (false, s)
  end = (false, s).

(** What an operation may do before a reply arrives: send one request, or
    show one error notification, or neither; never both. *)
Definition one_step (p p' : page) : Prop :=
  (requests p' = requests p /\ flash p' = flash p) \/
  (exists r, requests p' = requests p ++ [r] /\ flash p' = flash p) \/
  (exists n, notifications p' = notifications p ++ [n] /\
             is_error_notification n = true /\ requests p' = requests p).


(** Nothing [parseFloat] can read at the head of [s]: after the leading
    white space the string ends, or goes on with a character that is not
    a digit, a sign, a full stop or the "I" of "Infinity". *)
Definition no_numeral (s : jsstring) : bool :=
  match trim_start s with
  | [] => true
  | c :: _ =>
      negb (is_digit c || (c =? plus_sign) || (c =? minus_sign)
            || (c =? full_stop) || (c =? 73))%N
  end.

(** * Properties *)

(** ** The matcher decides the language *)

Section RegexTheory.

Lemma nullable_matches r : nullable r = true <-> matches r [].
Proof.
  split.
  - induction r; simpl; intros H; try discriminate.
    + constructor.
    + apply andb_true_iff in H as [H1 H2].
      change (@nil char) with (@nil char ++ []). constructor; auto.
    + apply orb_true_iff in H as [H|H]; [apply MAltL | apply MAltR]; auto.
    + constructor.
  - intros H. remember [] as s eqn:Hs. revert Hs.
    induction H; intros Hs; simpl; try reflexivity; try discriminate.
    + apply app_eq_nil in Hs as [-> ->]. rewrite IHmatches1, IHmatches2; auto.
    + rewrite IHmatches; auto.
    + rewrite IHmatches; auto using orb_true_r.
Qed.

Lemma deriv_sound c r s : matches (deriv c r) s -> matches r (c :: s).
Proof.
  revert s. induction r; simpl; intros s H.
  - inversion H.
  - inversion H.
  - destruct (p c) eqn:Hp; inversion H; subst. now constructor.
  - destruct (nullable r1) eqn:Hn.
    + inversion H; subst.
      * inversion H3; subst. change (c :: s1 ++ s2) with ((c :: s1) ++ s2).
        constructor; auto.
      * change (c :: s) with ([] ++ c :: s). constructor; auto.
        now apply nullable_matches.
    + inversion H; subst. change (c :: s1 ++ s2) with ((c :: s1) ++ s2).
      constructor; auto.
  - inversion H; subst; [apply MAltL | apply MAltR]; auto.
  - inversion H; subst. change (c :: s1 ++ s2) with ((c :: s1) ++ s2).
    constructor; auto.
Qed.

Lemma deriv_complete c r s : matches r (c :: s) -> matches (deriv c r) s.
Proof.
  intros H. remember (c :: s) as cs eqn:Hcs. revert c s Hcs.
  induction H; intros c0 s0 Hcs; simpl; try discriminate.
  - injection Hcs as -> <-. rewrite H. constructor.
  - destruct s1 as [|c1 s1'].
    + simpl in Hcs. subst s2.
      apply nullable_matches in H. rewrite H. apply MAltR. now apply IHmatches2.
    + injection Hcs as -> <-.
      assert (Hd : matches (Cat (deriv c0 r1) r2) (s1' ++ s2))
        by (constructor; auto).
      destruct (nullable r1); [now apply MAltL | exact Hd].
  - apply MAltL. now apply IHmatches.
  - apply MAltR. now apply IHmatches.
  - destruct s1 as [|c1 s1'].
    + simpl in Hcs. now apply IHmatches2.
    + injection Hcs as -> <-. constructor; auto.
Qed.

Lemma test_anchored_spec r s : test_anchored r s = true <-> matches r s.
Proof.
  revert r. induction s as [|c s IH]; intros r; simpl.
  - apply nullable_matches.
  - rewrite IH. split; [apply deriv_sound | apply deriv_complete].
Qed.

Lemma matches_class_inv p s :
  matches (Class p) s -> exists c, s = [c] /\ p c = true.
Proof. intros H. inversion H; subst. eauto. Qed.

Lemma matches_cat_inv r1 r2 s :
  matches (Cat r1 r2) s ->
  exists s1 s2, s = s1 ++ s2 /\ matches r1 s1 /\ matches r2 s2.
Proof. intros H. inversion H; subst. eauto. Qed.

Lemma matches_star_class p s :
  matches (Star (Class p)) s <-> forallb p s = true.
Proof.
  split.
  - intros H. remember (Star (Class p)) as r eqn:Hr. revert Hr.
    induction H; intros Hr; try discriminate; [reflexivity|].
    injection Hr as ->. apply matches_class_inv in H as (c & -> & Hc).
    simpl. rewrite Hc. simpl. auto.
  - induction s as [|c s IH]; simpl; intros H; [constructor|].
    apply andb_true_iff in H as [Hc Hs].
    change (c :: s) with ([c] ++ s). constructor; auto. now constructor.
Qed.

Lemma matches_plus_class p s :
  matches (Plus (Class p)) s <-> s <> [] /\ forallb p s = true.
Proof.
  unfold Plus. split.
  - intros H. apply matches_cat_inv in H as (s1 & s2 & -> & H1 & H2).
    apply matches_class_inv in H1 as (c & -> & Hc).
    apply matches_star_class in H2. simpl. rewrite Hc.
    split; [discriminate | exact H2].
  - intros [Hne Hall]. destruct s as [|c s]; [congruence|].
    simpl in Hall. apply andb_true_iff in Hall as [Hc Hs].
    change (c :: s) with ([c] ++ s). constructor; [now constructor|].
    now apply matches_star_class.
Qed.

Lemma matches_repeat_class p n s :
  matches (Repeat n (Class p)) s <-> length s = n /\ forallb p s = true.
Proof.
  revert s. induction n as [|n IH]; intros s; simpl.
  - split.
    + intros H. inversion H. auto.
    + intros [Hl _]. destruct s; [constructor | discriminate].
  - split.
    + intros H. apply matches_cat_inv in H as (s1 & s2 & -> & H1 & H2).
      apply matches_class_inv in H1 as (c & -> & Hc).
      apply IH in H2 as [Hl Hall]. simpl. rewrite Hc, Hl. auto.
    + intros [Hl Hall]. destruct s as [|c s]; [discriminate|].
      simpl in Hall. apply andb_true_iff in Hall as [Hc Hs].
      change (c :: s) with ([c] ++ s). constructor; [now constructor|].
      apply IH. split; [now injection Hl | exact Hs].
Qed.

End RegexTheory.

(** ** Phone and e-mail validators *)

Lemma replace_non_digit_strip s :
  replace_class non_digit [] s = strip_non_digits s.
Proof.
  unfold strip_non_digits, non_digit.
  induction s as [|c s IH]; simpl; [reflexivity|].
  destruct (is_digit c); simpl; now rewrite IH.
Qed.

Lemma strip_non_digits_all_digits s :
  forallb is_digit (strip_non_digits s) = true.
Proof.
  unfold strip_non_digits. apply forallb_forall.
  intros c Hc. now apply filter_In in Hc.
Qed.

Lemma validatePhone_length s :
  validatePhone s = true <-> length (strip_non_digits s) = 10%nat.
Proof.
  unfold validatePhone, re_phone.
  rewrite test_anchored_spec, matches_repeat_class, replace_non_digit_strip.
  pose proof (strip_non_digits_all_digits s). tauto.
Qed.

(** C5: the phone validator accepts a string exactly when what is left
    after stripping its non-digit characters is a string of exactly ten
    digits; "(555) 123-4567" is accepted, "555-123-456" (nine digits) and
    "55512345678" (eleven digits) are rejected. *)
Theorem validatePhone_iff_ten_digits :
  (forall s : jsstring,
      validatePhone s = true <->
      length (strip_non_digits s) = 10%nat /\
      forallb is_digit (strip_non_digits s) = true) /\
  validatePhone (lit "(555) 123-4567") = true /\
  validatePhone (lit "555-123-456") = false /\
  validatePhone (lit "55512345678") = false.
Proof.
  split; [|repeat split; reflexivity].
  intros s. rewrite validatePhone_length.
  pose proof (strip_non_digits_all_digits s). tauto.
Qed.

Lemma not_space_at_no_at s :
  forallb not_space_at s = true -> ~ In at_sign s.
Proof.
  intros H Hin. rewrite forallb_forall in H. specialize (H _ Hin).
  unfold not_space_at in H. rewrite N.eqb_refl, orb_true_r in H. discriminate.
Qed.

Lemma matches_email_inv s :
  matches re_email s ->
  exists a b c,
    s = a ++ at_sign :: b ++ full_stop :: c /\
    (a <> [] /\ forallb not_space_at a = true) /\
    (b <> [] /\ forallb not_space_at b = true) /\
    (c <> [] /\ forallb not_space_at c = true).
Proof.
  unfold re_email. intros H.
  apply matches_cat_inv in H as (a & s1 & -> & Ha & H).
  apply matches_cat_inv in H as (x & s2 & -> & Hx & H).
  apply matches_cat_inv in H as (b & s3 & -> & Hb & H).
  apply matches_cat_inv in H as (y & c & -> & Hy & Hc).
  apply matches_class_inv in Hx as (cx & -> & Hx).
  apply matches_class_inv in Hy as (cy & -> & Hy).
  apply N.eqb_eq in Hx, Hy. subst cx cy.
  apply matches_plus_class in Ha, Hb, Hc.
  exists a, b, c. simpl. auto.
Qed.

Lemma split_at_unique (x : char) a r pre post :
  a ++ x :: r = pre ++ x :: post -> ~ In x a -> ~ In x r -> pre = a /\ post = r.
Proof.
  revert pre. induction a as [|c a IH]; intros pre Heq Ha Hr.
  - destruct pre as [|d pre]; simpl in Heq.
    + injection Heq as <-. auto.
    + injection Heq as <- ->. exfalso. apply Hr, in_or_app. right. now left.
  - destruct pre as [|d pre]; simpl in Heq.
    + injection Heq as -> _. exfalso. apply Ha. now left.
    + injection Heq as <- Heq. apply IH in Heq as [-> ->]; auto.
      intros Hin. apply Ha. now right.
Qed.

Lemma validateEmail_true_inv s :
  validateEmail s = true ->
  In at_sign s /\ forall pre post, s = pre ++ at_sign :: post -> In full_stop post.
Proof.
  unfold validateEmail. rewrite test_anchored_spec. intros H.
  apply matches_email_inv in H as (a & b & c & -> & [_ Ha] & [_ Hb] & [_ Hc]).
  apply not_space_at_no_at in Ha, Hb, Hc.
  split.
  - apply in_or_app. right. now left.
  - intros pre post Heq. apply split_at_unique in Heq as [_ ->]; auto.
    + apply in_or_app. right. now left.
    + intros Hin. apply in_app_or in Hin as [Hin|[Hin|Hin]]; auto.
      discriminate Hin.
Qed.

(** C8: the e-mail validator rejects every string with no "@" and every
    string in which some "@" is followed by no "." (whichever "@" is
    meant, the first, the last or any other); it accepts "a@b.c". *)
Theorem validateEmail_rejects_and_accepts :
  (forall s : jsstring, ~ In at_sign s -> validateEmail s = false) /\
  (forall pre post : jsstring,
      ~ In full_stop post -> validateEmail (pre ++ at_sign :: post) = false) /\
  validateEmail (lit "a@b.c") = true.
Proof.
  split; [|split; [|reflexivity]].
  - intros s Hno. destruct (validateEmail s) eqn:Hv; [|reflexivity].
    apply validateEmail_true_inv in Hv as [Hin _]. contradiction.
  - intros pre post Hno.
    destruct (validateEmail (pre ++ at_sign :: post)) eqn:Hv; [|reflexivity].
    apply validateEmail_true_inv in Hv as [_ Hdot].
    exfalso. apply Hno, (Hdot pre post eq_refl).
Qed.

Lemma validateEmail_rejects_witness :
  validateEmail (lit "user.example.com") = false /\
  validateEmail (lit "user.name@localhost") = false.
Proof.
  destruct validateEmail_rejects_and_accepts as (Hno_at & Hno_dot & _).
  split.
  - apply Hno_at. vm_compute. intuition discriminate.
  - apply (Hno_dot (lit "user.name") (lit "localhost")).
    vm_compute. intuition discriminate.
Defined.

(** ** Cart and order operations *)

#[local] Arguments num_truthy : simpl never.
#[local] Arguments num_lt : simpl never.
#[local] Arguments parseInt : simpl never.
#[local] Arguments validatePhone : simpl never.
#[local] Arguments trim : simpl never.
#[local] Arguments lit : simpl never.

Ltac run :=
  unfold exec, settle, on_data, on_error, addToCart, updateQuantity, removeFromCart,
    placeOrder, updateCartCount, confirm,
    console_error, set_value, get_value, getElementById, fetch, lift, modify, read,
    throw, mbind, mret, action_bind, action_ret;
  cbn.

(** [showNotification] never fails: it appends one element to the
    container (made on the spot when the page has none) and sets the timer
    that removes it. *)
Lemma showNotification_run message type p :
  showNotification message type p =
  (Ok tt,
   add_timer 3000 (RemoveNotification (fresh p))
     (set_flash (Some (notifications p ++ [new_notification message type p]))
        (bump_fresh p))).
Proof.
  unfold showNotification, createFlashContainer, notifications, new_notification,
    modify, read, mbind, mret, action_bind, action_ret.
  cbn. destruct (flash p); reflexivity.
Qed.

Lemma new_notification_severity message p :
  is_error_notification (new_notification message (lit "error") p) = true /\
  is_success_notification (new_notification message (lit "success") p) = true.
Proof. split; reflexivity. Qed.

(** A quantity argument that is a negative number is rejected on the
    spot, whatever the page holds. *)
Lemma addToCart_negative_rejected productId (q : Q) (p : page) :
  (q < 0)%Q ->
  let p' := exec (addToCart productId (Some (Fin q))) p in
  requests p' = requests p /\
  exists n, notifications p' = notifications p ++ [n] /\
            is_error_notification n = true /\
            textContent n = VStr (lit "Please select a valid quantity").
Proof.
  intros Hq.
  assert (Ht : num_truthy (Fin q) = true).
  { unfold num_truthy. apply negb_true_iff. destruct (Qeq_bool q 0) eqn:E; [|reflexivity].
    apply Qeq_bool_iff in E. rewrite E in Hq. now apply Qlt_irrefl in Hq. }
  assert (Hl : num_lt (Fin q) (Fin 1) = true).
  { unfold num_lt, Qltb. apply negb_true_iff.
    destruct (Qle_bool 1 q) eqn:E; [|reflexivity].
    apply Qle_bool_iff in E. exfalso.
    apply (Qlt_irrefl 1). eapply Qle_lt_trans; [exact E|].
    eapply Qlt_trans; [exact Hq | reflexivity]. }
  run. destruct (inputs p !! (lit "qty-" ++ productId)); cbn;
    rewrite Ht; cbn; rewrite Hl, showNotification_run; cbn;
    (split; [reflexivity|]); eexists; repeat split.
Qed.

(** C1: a quantity argument of 0 is not rejected.  [quantity || ...]
    takes 0 for a missing argument, so the quantity comes from the
    product's input field, or is 1 when there is none: on a page without
    the field, [addToCart("P1", 0)] posts quantity 1 and shows nothing. *)
Theorem addToCart_zero_quantity_sends_request :
  (forall productId p,
      addToCart productId (Some (Fin 0)) p = addToCart productId None p) /\
  (let p' := exec (addToCart (lit "P1") (Some (Fin 0))) blank_page in
   requests p' = [add_to_cart_request (lit "P1") (Fin 1) None] /\
   notifications p' = []).
Proof.
  split.
  - intros productId p. reflexivity.
  - split; reflexivity.
Qed.

Lemma removeFromCart_declined productId p :
  confirm_reply p = false ->
  removeFromCart productId p = (Ok tt, add_dialog (lit "Remove this item from cart?") p).
Proof. intros H. run. now rewrite H. Qed.

Lemma removeFromCart_confirmed productId p :
  confirm_reply p = true ->
  removeFromCart productId p =
  (Ok tt,
   add_request
     {| url := lit "/remove_from_cart"; method := POST;
        body := Some (VObj [(lit "product_id", VStr productId)]);
        chain := HRemoveFromCart productId |}
     (add_dialog (lit "Remove this item from cart?") p)).
Proof. intros H. run. now rewrite H. Qed.

(** C4: when the user declines the confirm dialog, [removeFromCart]
    sends no request and shows no notification: the dialog is all that
    happened. *)
Theorem removeFromCart_declined_does_nothing productId p :
  confirm_reply p = false ->
  let p' := exec (removeFromCart productId) p in
  requests p' = requests p /\
  flash p' = flash p /\
  p' = add_dialog (lit "Remove this item from cart?") p.
Proof.
  intros H p'. subst p'. unfold exec.
  rewrite (removeFromCart_declined _ _ H). repeat split.
Qed.

Lemma removeFromCart_declined_witness :
  let p' := exec (removeFromCart (lit "P1")) blank_page in
  requests p' = [] /\ flash p' = None.
Proof.
  destruct (removeFromCart_declined_does_nothing (lit "P1") blank_page eq_refl)
    as (Hr & Hf & _).
  split; [exact Hr | exact Hf].
Defined.

Lemma requests_to_removeFromCart u productId p :
  u <> lit "/remove_from_cart" ->
  requests_to u (exec (removeFromCart productId) p) = requests_to u p.
Proof.
  intros Hu. unfold exec. destruct (confirm_reply p) eqn:Hc.
  - rewrite (removeFromCart_confirmed _ _ Hc). unfold requests_to. cbn.
    rewrite List.filter_app. cbn. unfold jsstring_eqb.
    rewrite bool_decide_eq_false_2 by congruence. apply app_nil_r.
  - now rewrite (removeFromCart_declined _ _ Hc).
Qed.

(** C3: with a new quantity below 1, [updateQuantity] is
    [removeFromCart] on the same product, and the page has no new request
    to the update endpoint; 0 is such a quantity. *)
Theorem updateQuantity_below_one_removes productId newQuantity p :
  num_lt newQuantity (Fin 1) = true ->
  updateQuantity productId newQuantity p = removeFromCart productId p /\
  requests_to (lit "/update_cart") (exec (updateQuantity productId newQuantity) p)
  = requests_to (lit "/update_cart") p /\
  num_lt (Fin 0) (Fin 1) = true.
Proof.
  intros H.
  assert (Heq : updateQuantity productId newQuantity p = removeFromCart productId p).
  { unfold updateQuantity. now rewrite H. }
  split; [exact Heq|]. split; [|reflexivity].
  unfold exec. rewrite Heq. now apply requests_to_removeFromCart.
Qed.

Lemma updateQuantity_zero_witness :
  let p := set_cart_lines [lit "P1"] blank_page in
  updateQuantity (lit "P1") (Fin 0) p = removeFromCart (lit "P1") p /\
  requests_to (lit "/update_cart") (exec (updateQuantity (lit "P1") (Fin 0)) p) = [].
Proof.
  destruct (updateQuantity_below_one_removes (lit "P1") (Fin 0)
              (set_cart_lines [lit "P1"] blank_page) eq_refl) as (H1 & H2 & _).
  split; [exact H1 | exact H2].
Defined.

Lemma is_space_not_digit c : is_space c = true -> is_digit c = false.
Proof.
  unfold is_space, is_digit. intros H.
  destruct (48 <=? c)%N eqn:H1; [|reflexivity].
  destruct (c <=? 57)%N eqn:H2; [|reflexivity].
  apply N.leb_le in H1, H2. exfalso.
  repeat (apply orb_true_iff in H as [H|H]);
    try (apply andb_true_iff in H as [Ha Hb]; apply N.leb_le in Ha, Hb; lia);
    try (apply N.eqb_eq in H; lia).
Qed.

Lemma strip_drop_while_space s :
  strip_non_digits (drop_while is_space s) = strip_non_digits s.
Proof.
  unfold strip_non_digits. induction s as [|c s IH]; [reflexivity|].
  simpl. destruct (is_space c) eqn:E; [|reflexivity].
  now rewrite (is_space_not_digit _ E).
Qed.

Lemma strip_rev s : strip_non_digits (rev s) = rev (strip_non_digits s).
Proof. apply List.filter_rev. Qed.

Lemma strip_trim s : strip_non_digits (trim s) = strip_non_digits s.
Proof.
  unfold trim, trim_end, trim_start.
  rewrite strip_rev, strip_drop_while_space, strip_rev, rev_involutive.
  apply strip_drop_while_space.
Qed.

Lemma placeOrder_run p a ph :
  inputs p !! lit "deliveryAddress" = Some a ->
  inputs p !! lit "phoneNumber" = Some ph ->
  placeOrder p =
  match trim a with
  | [] => showNotification (VStr (lit "Please enter delivery address")) (lit "error") p
  | _ =>
      if validatePhone (trim ph) then
        (Ok tt, add_request (place_order_request (trim a) (trim ph)) p)
      else showNotification (VStr (lit "Please enter a valid phone number")) (lit "error") p
  end.
Proof.
  intros Ha Hp. run. rewrite Ha. cbn. rewrite Hp. cbn.
  destruct (trim a); [reflexivity|].
  destruct (validatePhone (trim ph)); reflexivity.
Qed.

(** C2: [placeOrder] looks at the trimmed address first: when it is
    empty the only effect is the error "Please enter delivery address".
    Otherwise it looks at the phone: when stripping its non-digits does
    not leave exactly ten digits the only effect is the error "Please
    enter a valid phone number".  Only when both checks pass is a request
    sent, with the body {address, phone} and no notification. *)
Theorem placeOrder_validation_order (p : page) (a ph : jsstring) :
  inputs p !! lit "deliveryAddress" = Some a ->
  inputs p !! lit "phoneNumber" = Some ph ->
  let p' := exec placeOrder p in
  (trim a = [] ->
   requests p' = requests p /\
   notifications p' = notifications p ++
     [new_notification (VStr (lit "Please enter delivery address")) (lit "error") p]) /\
  (trim a <> [] -> length (strip_non_digits ph) <> 10%nat ->
   requests p' = requests p /\
   notifications p' = notifications p ++
     [new_notification (VStr (lit "Please enter a valid phone number")) (lit "error") p]) /\
  (trim a <> [] -> length (strip_non_digits ph) = 10%nat ->
   requests p' = requests p ++ [place_order_request (trim a) (trim ph)] /\
   flash p' = flash p).
Proof.
  intros Ha Hp p'. subst p'. unfold exec. rewrite (placeOrder_run _ _ _ Ha Hp).
  pose proof (validatePhone_length (trim ph)) as Hv. rewrite strip_trim in Hv.
  split; [|split].
  - intros Hempty. rewrite Hempty, showNotification_run. split; reflexivity.
  - intros Hne Hbad. destruct (trim a); [congruence|].
    destruct (validatePhone (trim ph)); [exfalso; apply Hbad; now apply Hv|].
    rewrite showNotification_run. split; reflexivity.
  - intros Hne Hgood. destruct (trim a); [congruence|].
    apply Hv in Hgood. rewrite Hgood. split; reflexivity.
Qed.

Lemma placeOrder_validation_witness :
  (let p' := exec placeOrder (order_form (lit "   ") (lit "5551234567")) in
   requests p' = [] /\
   notifications p' =
     [new_notification (VStr (lit "Please enter delivery address")) (lit "error") blank_page]) /\
  (let p' := exec placeOrder (order_form (lit "1 Main St") (lit "555-123-456")) in
   requests p' = [] /\
   notifications p' =
     [new_notification (VStr (lit "Please enter a valid phone number")) (lit "error") blank_page]) /\
  (let p' := exec placeOrder (order_form (lit " 1 Main St ") (lit "555 123 4567")) in
   requests p' = [place_order_request (lit "1 Main St") (lit "555 123 4567")] /\
   flash p' = None).
Proof.
  split; [|split].
  - apply (placeOrder_validation_order (order_form (lit "   ") (lit "5551234567"))
             (lit "   ") (lit "5551234567") eq_refl eq_refl).
    reflexivity.
  - apply (placeOrder_validation_order (order_form (lit "1 Main St") (lit "555-123-456"))
             (lit "1 Main St") (lit "555-123-456") eq_refl eq_refl).
    + vm_compute. discriminate.
    + vm_compute. discriminate.
  - apply (placeOrder_validation_order (order_form (lit " 1 Main St ") (lit "555 123 4567"))
             (lit " 1 Main St ") (lit "555 123 4567") eq_refl eq_refl).
    + vm_compute. discriminate.
    + reflexivity.
Defined.

(** C10: when both checks pass, the phone in the request body is the
    form value, trimmed and otherwise as typed, not its ten digits:
    "(555) 123-4567" passes the check and is sent with its brackets, space
    and hyphen. *)
Theorem placeOrder_sends_phone_as_typed (p : page) (a ph : jsstring) :
  inputs p !! lit "deliveryAddress" = Some a ->
  inputs p !! lit "phoneNumber" = Some ph ->
  trim a <> [] ->
  validatePhone (trim ph) = true ->
  requests (exec placeOrder p) =
    requests p ++
    [{| url := lit "/place_order"; method := POST;
        body := Some (VObj [(lit "address", VStr (trim a)); (lit "phone", VStr (trim ph))]);
        chain := HPlaceOrder |}] /\
  validatePhone (lit "(555) 123-4567") = true /\
  trim (lit "(555) 123-4567") = lit "(555) 123-4567" /\
  strip_non_digits (lit "(555) 123-4567") = lit "5551234567".
Proof.
  intros Ha Hp Hne Hv. split; [|repeat split; reflexivity].
  unfold exec. rewrite (placeOrder_run _ _ _ Ha Hp), Hv.
  destruct (trim a); [congruence | reflexivity].
Qed.

Lemma placeOrder_sends_phone_witness :
  requests (exec placeOrder (order_form (lit "1 Main St") (lit " (555) 123-4567 "))) =
    [{| url := lit "/place_order"; method := POST;
        body := Some (VObj [(lit "address", VStr (lit "1 Main St"));
                            (lit "phone", VStr (lit "(555) 123-4567"))]);
        chain := HPlaceOrder |}].
Proof.
  assert (Hne : trim (lit "1 Main St") <> []) by (vm_compute; discriminate).
  exact (proj1 (placeOrder_sends_phone_as_typed
                  (order_form (lit "1 Main St") (lit " (555) 123-4567 "))
                  (lit "1 Main St") (lit " (555) 123-4567 ")
                  eq_refl eq_refl Hne eq_refl)).
Defined.

Lemma parseInt_3 : parseInt (lit "3") = Fin 3.
Proof. vm_compute. reflexivity. Qed.

(** C6: with "3" in the quantity field of P1, [addToCart("P1", null)]
    posts {product_id: "P1", quantity: 3}; when the reply is an object
    whose success flag is true, the chain shows a success notification,
    asks for the cart count again and sets the quantity field to "1". *)
Theorem addToCart_reads_field_and_resets_it (p : page) :
  inputs p !! lit "qty-P1" = Some (lit "3") ->
  let p1 := exec (addToCart (lit "P1") None) p in
  requests p1 = requests p ++
    [{| url := lit "/add_to_cart"; method := POST;
        body := Some (VObj [(lit "product_id", VStr (lit "P1"));
                            (lit "quantity", VNum (Fin 3))]);
        chain := HAddToCart (Some (lit "qty-P1")) |}] /\
  forall fields,
    lookup_field (lit "success") fields = VBool true ->
    let p2 := exec (settle (HAddToCart (Some (lit "qty-P1"))) (Json (VObj fields))) p1 in
    notifications p2 = notifications p1 ++
      [new_notification (VStr (lit "Product added to cart!")) (lit "success") p1] /\
    requests p2 = requests p1 ++ [cart_count_request] /\
    inputs p2 !! lit "qty-P1" = Some (lit "1").
Proof.
  intros Hq.
  assert (Hrun : addToCart (lit "P1") None p =
                 (Ok tt, add_request (add_to_cart_request (lit "P1") (Fin 3)
                                        (Some (lit "qty-P1"))) p)).
  { run. change (lit "qty-" ++ lit "P1") with (lit "qty-P1").
    rewrite Hq. cbn. rewrite Hq. cbn. rewrite parseInt_3. reflexivity. }
  intros p1.
  assert (Hp1 : p1 = add_request (add_to_cart_request (lit "P1") (Fin 3)
                                    (Some (lit "qty-P1"))) p).
  { subst p1. unfold exec. now rewrite Hrun. }
  clearbody p1. subst p1.
  split; [reflexivity|].
  intros fields Hs. run. rewrite Hs. cbn. rewrite showNotification_run. cbn.
  repeat split. apply lookup_insert_eq.
Qed.

Lemma addToCart_reads_field_witness :
  let p := set_inputs (insert (lit "qty-P1") (lit "3")) blank_page in
  let p1 := exec (addToCart (lit "P1") None) p in
  let p2 := exec (settle (HAddToCart (Some (lit "qty-P1")))
                    (Json (VObj [(lit "success", VBool true)]))) p1 in
  requests p1 = [add_to_cart_request (lit "P1") (Fin 3) (Some (lit "qty-P1"))] /\
  requests p2 = requests p1 ++ [cart_count_request] /\
  inputs p2 !! lit "qty-P1" = Some (lit "1").
Proof.
  assert (Hfield0 : inputs (set_inputs (insert (lit "qty-P1") (lit "3")) blank_page)
                    !! lit "qty-P1" = Some (lit "3")) by (vm_compute; reflexivity).
  destruct (addToCart_reads_field_and_resets_it _ Hfield0) as [Hreq Hdone].
  destruct (Hdone [(lit "success", VBool true)] eq_refl) as (_ & Hcount & Hfield).
  split; [exact Hreq | split; [exact Hcount | exact Hfield]].
Defined.

(** C7: [updateCartCount] never touches the notification container,
    neither when it sends the request nor when its chain runs on any
    reply; when the fetch fails or the body is not JSON the chain only
    logs the error, so the badge keeps its text. *)
Theorem updateCartCount_is_silent (p : page) :
  flash (exec updateCartCount p) = flash p /\
  (forall r, flash (exec (settle HCartCount r) p) = flash p) /\
  exec (settle HCartCount NetworkFailure) p = add_console TypeError p /\
  exec (settle HCartCount NotJson) p = add_console SyntaxError p /\
  cartCount (exec (settle HCartCount NetworkFailure) p) = cartCount p /\
  cartCount (exec (settle HCartCount NotJson) p) = cartCount p.
Proof.
  split; [reflexivity|]. split; [|repeat split].
  intros [| |data]; [reflexivity | reflexivity |].
  run. destruct (get_prop data (lit "count")); cbn; [|reflexivity].
  destruct (cartCount p); reflexivity.
Qed.

(** ** Rounding to binary64 *)

Lemma round_half_even_nearest a b z :
  0 < b -> Z.abs (round_half_even a b * b - a) <= Z.abs (z * b - a).
Proof.
  intros Hb. unfold round_half_even.
  pose proof (Z.div_mod a b ltac:(lia)) as Hdm.
  pose proof (Z.mod_pos_bound a b Hb) as Hr.
  set (d := a / b) in *. set (r := a mod b) in *. clearbody d r.
  assert (Hz : z <= d - 1 \/ z = d \/ z = d + 1 \/ d + 2 <= z) by lia.
  destruct (Z.compare_spec (2 * r) b) as [He|Hl|Hg];
    [destruct (Z.even d)| |];
    destruct Hz as [Hz|[Hz|[Hz|Hz]]]; subst; nia.
Qed.

Lemma round_half_even_bounds a b lo hi :
  0 < b -> lo * b <= a -> a <= hi * b -> lo <= round_half_even a b <= hi.
Proof.
  intros Hb Hlo Hhi. unfold round_half_even.
  pose proof (Z.div_mod a b ltac:(lia)) as Hdm.
  pose proof (Z.mod_pos_bound a b Hb) as Hr.
  set (d := a / b) in *. set (r := a mod b) in *. clearbody d r.
  assert (lo <= d) by nia.
  assert (d < hi \/ (d = hi /\ r = 0)) as [Hd|[Hd Hr0]] by nia.
  - destruct (Z.compare_spec (2 * r) b); [destruct (Z.even d)| |]; lia.
  - rewrite Hr0. destruct (Z.compare_spec (2 * 0) b); [lia | lia | lia].
Qed.

Lemma nearest_scaled_spec a b :
  0 <= a -> 0 < b ->
  exists M k,
    nearest_scaled a b = M * 2 ^ k /\ 0 <= k /\ 0 <= M <= 2 ^ 53 /\
    (0 < k -> 2 ^ 52 <= M) /\
    forall m k', Z.abs m <= 2 ^ 53 -> 0 <= k' ->
      Z.abs (nearest_scaled a b * b - a * scale)
      <= Z.abs (m * 2 ^ k' * b - a * scale).
Proof.
  intros Ha Hb. unfold nearest_scaled.
  assert (Hscale : 0 < scale) by reflexivity.
  set (P := a * scale). assert (HP : 0 <= P) by (subst P; nia).
  set (t := P / b).
  pose proof (Z.div_mod P b ltac:(lia)) as Hdm.
  pose proof (Z.mod_pos_bound P b Hb) as Hr.
  fold t in Hdm.
  assert (Ht : 0 <= t) by (subst t; apply Z.div_pos; lia).
  set (k := Z.max 0 (Z.log2 t - 52)).
  assert (Hk : 0 <= k) by lia.
  assert (Hp2 : 0 < 2 ^ k) by (apply Z.pow_pos_nonneg; lia).
  assert (Hupper : t < 2 ^ 53 * 2 ^ k).
  { destruct (Z.eq_dec t 0) as [->|Hne]; [nia|].
    pose proof (Z.log2_spec t ltac:(lia)) as [_ Hlt].
    eapply Z.lt_le_trans; [exact Hlt|].
    rewrite <- Z.pow_add_r by lia. apply Z.pow_le_mono_r; lia. }
  assert (Hlower : 0 < k -> 2 ^ 52 * 2 ^ k <= t).
  { intros Hkpos. assert (Htpos : 0 < t).
    { destruct (Z.eq_dec t 0) as [E|E]; [|lia].
      subst k. rewrite E in Hkpos. simpl in Hkpos. lia. }
    pose proof (Z.log2_spec t Htpos) as [Hle _].
    eapply Z.le_trans; [|exact Hle].
    rewrite <- Z.pow_add_r by lia. apply Z.pow_le_mono_r; lia. }
  set (D := b * 2 ^ k). assert (HD : 0 < D) by (subst D; nia).
  set (M := round_half_even P D).
  assert (HM : 0 <= M <= 2 ^ 53).
  { apply round_half_even_bounds; [exact HD | lia | subst D; nia]. }
  assert (HM52 : 0 < k -> 2 ^ 52 <= M).
  { intros Hkpos. specialize (Hlower Hkpos).
    apply (round_half_even_bounds P D (2 ^ 52) (2 ^ 53)); [exact HD | subst D; nia | subst D; nia]. }
  exists M, k. repeat split; try lia; try assumption.
  intros m k' Hm Hk'.
  replace (M * 2 ^ k * b) with (M * D) by (subst D; ring).
  destruct (Z_le_gt_dec k k') as [Hge|Hlt].
  - replace (m * 2 ^ k' * b) with (m * 2 ^ (k' - k) * D).
    + apply round_half_even_nearest. exact HD.
    + subst D. replace k' with ((k' - k) + k) at 2 by lia.
      rewrite Z.pow_add_r by lia. ring.
  - assert (Hkpos : 0 < k) by lia. specialize (Hlower Hkpos).
    pose proof (round_half_even_nearest P D (2 ^ 52) HD) as Hn. fold M in Hn.
    assert (Hpk : 2 * 2 ^ k' <= 2 ^ k).
    { replace (2 * 2 ^ k') with (2 ^ (k' + 1)) by (rewrite Z.pow_add_r by lia; lia).
      apply Z.pow_le_mono_r; lia. }
    assert (Hpk' : 0 < 2 ^ k') by (apply Z.pow_pos_nonneg; lia).
    assert (HZ : m * 2 ^ k' <= 2 ^ 52 * 2 ^ k) by nia.
    assert (HZb : m * 2 ^ k' * b <= 2 ^ 52 * D) by (subst D; nia).
    assert (HDP : 2 ^ 52 * D <= P) by (subst D; nia).
    lia.
Qed.

Lemma scale_positive : 0 < scale.
Proof. unfold scale. lia. Qed.

Lemma scale_value : scale = 2 ^ 1074.
Proof. vm_compute. reflexivity. Qed.

Lemma Qred_nonneg q : (0 <= q)%Q -> 0 <= Qnum (Qred q).
Proof.
  intros H. rewrite <- (Qred_correct q) in H.
  unfold Qle in H. simpl in H. lia.
Qed.

Lemma round_double_Fin_inv q d :
  (0 <= q)%Q -> round_double q = Fin d ->
  exists N M k,
    d = Qred (N # scale_pos) /\ N = M * 2 ^ k /\ 0 <= k /\ 0 <= M <= 2 ^ 53 /\
    (0 < k -> 2 ^ 52 <= M) /\ N < 2 ^ 2098 /\
    forall m k', Z.abs m <= 2 ^ 53 -> 0 <= k' ->
      Z.abs (N * QDen (Qred q) - Qnum (Qred q) * scale)
      <= Z.abs (m * 2 ^ k' * QDen (Qred q) - Qnum (Qred q) * scale).
Proof.
  intros Hq. unfold round_double. cbv zeta.
  pose proof (Qred_nonneg q Hq) as Ha.
  set (a := Qnum (Qred q)) in *. set (b := QDen (Qred q)).
  rewrite (Z.abs_eq a Ha).
  destruct (nearest_scaled_spec a b Ha ltac:(subst b; lia))
    as (M & k & HN & Hk & HM & HM52 & Hnear).
  set (N := nearest_scaled a b) in *.
  destruct (2 ^ 2098 <=? N) eqn:Hov; [discriminate|].
  apply Z.leb_gt in Hov. intros Hd. injection Hd as <-.
  exists N, M, k.
  assert (HsN : Z.sgn a * N = N).
  { destruct (Z.eq_dec a 0) as [E|E].
    - specialize (Hnear 0 0 ltac:(lia) ltac:(lia)). rewrite E in *.
      assert (HNb : N * b = 0) by lia.
      apply Z.mul_eq_0 in HNb. subst b. lia.
    - rewrite Z.sgn_pos by lia. lia. }
  rewrite HsN. repeat split; try assumption; try lia.
Qed.

#[local] Opaque scale_pos.

Lemma Qabs_frac_sub (n a : Z) (b : positive) :
  (Qabs ((n # scale_pos) - (a # b)) == Z.abs (n * Zpos b - a * scale) # (scale_pos * b))%Q.
Proof.
  unfold Qminus, Qplus, Qopp, Qabs, Qeq, scale. simpl.
  f_equal. f_equal. ring.
Qed.

Lemma binary64_scaled_bound m k :
  Z.abs m < 2 ^ 53 -> 0 <= k <= 2045 -> Z.abs (m * 2 ^ k) < 2 ^ 2098.
Proof.
  intros Hm Hk.
  assert (2 ^ k <= 2 ^ 2045) by (apply Z.pow_le_mono_r; lia).
  assert (0 < 2 ^ k) by (apply Z.pow_pos_nonneg; lia).
  change (2 ^ 2098) with (2 ^ 53 * 2 ^ 2045).
  rewrite Z.abs_mul, (Z.abs_eq (2 ^ k)) by lia. nia.
Qed.

Lemma round_double_binary64 q d :
  (0 <= q)%Q -> round_double q = Fin d -> binary64 d /\ (0 <= d)%Q /\ Qred d = d.
Proof.
  intros Hq Hd.
  destruct (round_double_Fin_inv q d Hq Hd)
    as (N & M & k & -> & HN & Hk & HM & HM52 & Hov & _).
  assert (Hp2 : 0 < 2 ^ k) by (apply Z.pow_pos_nonneg; lia).
  split; [|split].
  - destruct (Z_lt_le_dec M (2 ^ 53)) as [Hlt|Hge].
    + exists M, k. split; [lia|]. split.
      * split; [lia|]. destruct (Z_le_gt_dec k 2045) as [|Hbig]; [lia|].
        exfalso. specialize (HM52 ltac:(lia)).
        assert (2 ^ 2046 <= 2 ^ k) by (apply Z.pow_le_mono_r; lia).
        change (2 ^ 2098) with (2 ^ 52 * 2 ^ 2046) in Hov. nia.
      * rewrite Qred_correct, HN. reflexivity.
    + assert (M = 2 ^ 53) by lia. subst M.
      exists (2 ^ 52), (k + 1). split; [lia|]. split.
      * split; [lia|]. destruct (Z_le_gt_dec (k + 1) 2045) as [|Hbig]; [lia|].
        exfalso. assert (2 ^ 2045 <= 2 ^ k) by (apply Z.pow_le_mono_r; lia).
        change (2 ^ 2098) with (2 ^ 53 * 2 ^ 2045) in Hov. nia.
      * rewrite Qred_correct, HN, Z.pow_add_r by lia.
        unfold Qeq. simpl. f_equal. lia.
  - rewrite Qred_correct. unfold Qle. simpl. nia.
  - apply Qred_complete, Qred_correct.
Qed.

Lemma round_double_nearest q d z :
  (0 <= q)%Q -> round_double q = Fin d -> binary64 z ->
  (Qabs (d - q) <= Qabs (z - q))%Q.
Proof.
  intros Hq Hd (m & k' & Hm & Hk' & Hz).
  destruct (round_double_Fin_inv q d Hq Hd)
    as (N & M & k & -> & _ & _ & _ & _ & _ & Hnear).
  specialize (Hnear m k' ltac:(lia) ltac:(lia)).
  rewrite Hz, Qred_correct, <- (Qred_correct q).
  destruct (Qred q) as [a b]. simpl in Hnear.
  rewrite !Qabs_frac_sub. unfold Qle. simpl.
  apply Z.mul_le_mono_nonneg_r; [lia | exact Hnear].
Qed.

Lemma round_double_id x :
  binary64 x -> (0 <= x)%Q -> round_double x = Fin (Qred x).
Proof.
  intros (m & k & Hm & Hk & Hx) Hpos.
  pose proof (binary64_scaled_bound m k Hm Hk) as Hbound.
  destruct (round_double x) as [| neg | d] eqn:Hd.
  - exfalso. unfold round_double in Hd. cbv zeta in Hd.
    destruct (_ <=? _) in Hd; discriminate.
  - exfalso. unfold round_double in Hd. cbv zeta in Hd.
    pose proof (Qred_nonneg x Hpos) as Ha.
    rewrite (Z.abs_eq _ Ha) in Hd.
    destruct (nearest_scaled_spec (Qnum (Qred x)) (QDen (Qred x)) Ha ltac:(lia))
      as (_ & _ & _ & _ & _ & _ & Hnear).
    specialize (Hnear m k ltac:(lia) ltac:(lia)).
    destruct (_ <=? _) eqn:Hov in Hd; [|discriminate]. apply Z.leb_le in Hov.
    rewrite <- (Qred_correct x) in Hx. unfold Qeq in Hx. simpl in Hx.
    fold scale in Hx.
    assert (Hz : m * 2 ^ k * QDen (Qred x) - Qnum (Qred x) * scale = 0) by lia.
    rewrite Hz in Hnear. simpl in Hnear.
    set (N := nearest_scaled _ _) in *.
    assert (HNb : N * QDen (Qred x) = m * 2 ^ k * QDen (Qred x)) by lia.
    apply Z.mul_cancel_r in HNb; lia.
  - f_equal.
    destruct (round_double_binary64 x d Hpos Hd) as (_ & _ & Hcanon).
    rewrite <- Hcanon. apply Qred_complete.
    pose proof (round_double_nearest x d x Hpos Hd
                  ltac:(exists m, k; auto)) as Hn.
    assert (Hxx : (x - x == 0)%Q) by ring.
    rewrite Hxx in Hn. change (Qabs 0) with 0%Q in Hn.
    apply Qabs_Qle_condition in Hn. lra.
Qed.

(** ** Decimal digits *)

Lemma digit_char_is_digit d : 0 <= d < 10 -> is_digit (digit_char d) = true.
Proof.
  intros H. unfold is_digit, digit_char.
  apply andb_true_iff. split; apply N.leb_le; lia.
Qed.

Lemma digit_value_char d : 0 <= d < 10 -> digit_value (digit_char d) = d.
Proof. intros H. unfold digit_value, digit_char. lia. Qed.

Lemma is_digit_value c : is_digit c = true -> 0 <= digit_value c < 10.
Proof.
  unfold is_digit, digit_value. intros H.
  apply andb_true_iff in H as [H1 H2]. apply N.leb_le in H1, H2. lia.
Qed.

Lemma digits_value_rev l : digits_value 10 digit_value (rev l) = value_rev l.
Proof.
  unfold digits_value, value_rev. induction l as [|c l IH]; [reflexivity|].
  simpl. now rewrite fold_left_app, IH.
Qed.

Lemma decimal_rev_S fuel n :
  decimal_rev (S fuel) n =
  if n <? 10 then [digit_char n]
  else digit_char (n mod 10) :: decimal_rev fuel (n / 10).
Proof. reflexivity. Qed.

Lemma decimal_rev_spec fuel n :
  0 <= n < 2 ^ Z.of_nat (S fuel) ->
  forallb is_digit (decimal_rev (S fuel) n) = true /\
  value_rev (decimal_rev (S fuel) n) = n /\
  (1 <= len (decimal_rev (S fuel) n)) /\
  (1 <= n -> 10 ^ (len (decimal_rev (S fuel) n) - 1) <= n
             < 10 ^ len (decimal_rev (S fuel) n)).
Proof.
  revert n. induction fuel as [|fuel IH]; intros n Hn;
    rewrite (decimal_rev_S _ n); destruct (n <? 10) eqn:Hlt.
  1, 3: apply Z.ltb_lt in Hlt; unfold len; cbn;
        rewrite digit_char_is_digit, digit_value_char by lia; repeat split; lia.
  - apply Z.ltb_ge in Hlt. change (2 ^ Z.of_nat 1) with 2 in Hn. lia.
  - apply Z.ltb_ge in Hlt.
    rewrite Nat2Z.inj_succ, Z.pow_succ_r in Hn by lia.
    pose proof (Z.div_mod n 10 ltac:(lia)) as Hdm.
    pose proof (Z.mod_pos_bound n 10 ltac:(lia)) as Hr.
    destruct (IH (n / 10) ltac:(lia)) as (Hd & Hv & Hl & Hb).
    specialize (Hb ltac:(lia)).
    set (rest := decimal_rev (S fuel) (n / 10)) in *. clearbody rest.
    unfold len in *. cbn [forallb value_rev fold_right length].
    fold (value_rev rest).
    rewrite digit_char_is_digit, digit_value_char, Hd, Hv by lia.
    rewrite Nat2Z.inj_succ.
    replace (Z.succ (Z.of_nat (length rest)) - 1)
      with (Z.succ (Z.of_nat (length rest) - 1)) by lia.
    rewrite !Z.pow_succ_r by lia.
    repeat split; lia.
Qed.

Lemma decimal_fuel n : 0 <= n -> 0 <= n < 2 ^ Z.of_nat (S (Z.to_nat (Z.log2 n))).
Proof.
  intros Hn. split; [exact Hn|].
  rewrite Nat2Z.inj_succ, Z2Nat.id by apply Z.log2_nonneg.
  destruct (Z.eq_dec n 0) as [->|Hne]; [reflexivity|].
  apply Z.log2_spec. lia.
Qed.

#[local] Arguments decimal_rev : simpl never.

Lemma decimal_digits n : 0 <= n -> forallb is_digit (decimal n) = true.
Proof.
  intros Hn. unfold decimal.
  destruct (decimal_rev_spec _ n (decimal_fuel n Hn)) as (Hd & _).
  rewrite forallb_forall in *. intros c Hc. apply Hd. now apply in_rev.
Qed.

Lemma decimal_value n : 0 <= n -> digits_value 10 digit_value (decimal n) = n.
Proof.
  intros Hn. unfold decimal. rewrite digits_value_rev.
  now destruct (decimal_rev_spec _ n (decimal_fuel n Hn)) as (_ & Hv & _).
Qed.

Lemma decimal_len n :
  0 <= n ->
  1 <= len (decimal n) /\
  (1 <= n -> 10 ^ (len (decimal n) - 1) <= n < 10 ^ len (decimal n)).
Proof.
  intros Hn. unfold decimal, len. rewrite length_rev.
  now destruct (decimal_rev_spec _ n (decimal_fuel n Hn)) as (_ & _ & Hl & Hb).
Qed.

Lemma decimal_len_unique k s :
  1 <= k -> 10 ^ (k - 1) <= s < 10 ^ k -> len (decimal s) = k.
Proof.
  intros Hk Hs.
  assert (Hs1 : 1 <= s).
  { pose proof (Z.pow_pos_nonneg 10 (k - 1) ltac:(lia) ltac:(lia)). lia. }
  destruct (decimal_len s ltac:(lia)) as [Hl Hb]. specialize (Hb Hs1).
  set (l := len (decimal s)) in *.
  destruct (Z.lt_trichotomy l k) as [Hlt|[Heq|Hgt]]; [|exact Heq|].
  - assert (10 ^ l <= 10 ^ (k - 1)) by (apply Z.pow_le_mono_r; lia). lia.
  - assert (10 ^ k <= 10 ^ (l - 1)) by (apply Z.pow_le_mono_r; lia). lia.
Qed.

Lemma digits_value_from acc ds :
  fold_left (fun a c => a * 10 + digit_value c) ds acc
  = acc * 10 ^ len ds + digits_value 10 digit_value ds.
Proof.
  unfold digits_value, len. revert acc.
  induction ds as [|c ds IH]; intros acc.
  - simpl. lia.
  - cbn [fold_left length]. rewrite IH, (IH (0 * 10 + digit_value c)).
    rewrite Nat2Z.inj_succ, Z.pow_succ_r by lia. ring.
Qed.

Lemma digits_value_app a b :
  digits_value 10 digit_value (a ++ b)
  = digits_value 10 digit_value a * 10 ^ len b + digits_value 10 digit_value b.
Proof.
  unfold digits_value at 1. rewrite fold_left_app.
  fold (digits_value 10 digit_value a). apply digits_value_from.
Qed.

Lemma zeros_digits n : forallb is_digit (zeros n) = true.
Proof.
  unfold zeros. induction (Z.to_nat n) as [|k IH]; [reflexivity|].
  simpl. exact IH.
Qed.

Lemma zeros_value n : digits_value 10 digit_value (zeros n) = 0.
Proof.
  unfold zeros, digits_value. induction (Z.to_nat n) as [|k IH]; [reflexivity|].
  simpl. exact IH.
Qed.

Lemma zeros_len n : 0 <= n -> len (zeros n) = n.
Proof. intros H. unfold len, zeros. rewrite repeat_length. lia. Qed.

Lemma len_app a b : len (a ++ b) = len a + len b.
Proof. unfold len. rewrite length_app. lia. Qed.

Lemma len_nonneg s : 0 <= len s.
Proof. unfold len. lia. Qed.

Lemma take_while_app p a rest :
  forallb p a = true ->
  match rest with [] => True | c :: _ => p c = false end ->
  take_while p (a ++ rest) = a.
Proof.
  intros Ha Hrest. induction a as [|c a IH]; simpl in *.
  - destruct rest as [|c rest]; [reflexivity|]. simpl. now rewrite Hrest.
  - apply andb_true_iff in Ha as [Hc Ha]. rewrite Hc. f_equal. now apply IH.
Qed.

Lemma skipn_len_app (a rest : jsstring) : skipn (length a) (a ++ rest) = rest.
Proof. induction a; simpl; auto. Qed.

(** ** Reading back what was written *)

Lemma round_double_comp q q' : (q == q')%Q -> round_double q = round_double q'.
Proof.
  intros H. unfold round_double. now rewrite (Qred_complete _ _ H).
Qed.

Lemma digit_not_special c :
  is_digit c = true ->
  is_space c = false /\ (c =? minus_sign)%N = false /\ (c =? plus_sign)%N = false /\
  (c =? full_stop)%N = false /\ (73 =? c)%N = false.
Proof.
  intros H. split.
  - destruct (is_space c) eqn:E; [|reflexivity].
    apply is_space_not_digit in E. congruence.
  - unfold is_digit in H. apply andb_true_iff in H as [H1 H2].
    apply N.leb_le in H1, H2.
    unfold minus_sign, plus_sign, full_stop.
    repeat split; apply N.eqb_neq; lia.
Qed.

Lemma literal_tail_head t e :
  literal_tail t e ->
  match t with [] => True | c :: _ => is_digit c = false end /\
  match t with [] => True | c :: _ => (c =? full_stop)%N = false end.
Proof. intros [[-> _]| ->]; split; reflexivity || exact I. Qed.

Lemma take_while_digits_all ds :
  forallb is_digit ds = true -> take_while is_digit ds = ds.
Proof.
  intros H. rewrite <- (app_nil_r ds) at 1. now apply take_while_app.
Qed.

Lemma decimal_nonempty n : 0 <= n -> decimal n <> [].
Proof.
  intros Hn E. destruct (decimal_len n Hn) as [Hl _].
  rewrite E in Hl. unfold len in Hl. simpl in Hl. lia.
Qed.

Lemma exponent_part_tail t e : literal_tail t e -> exponent_part t = e.
Proof.
  intros [[-> ->]| ->]; [reflexivity|].
  unfold exponent_string.
  assert (Hd := decimal_digits (Z.abs e) ltac:(lia)).
  assert (Hv := decimal_value (Z.abs e) ltac:(lia)).
  assert (Hne := decimal_nonempty (Z.abs e) ltac:(lia)).
  set (ds := decimal (Z.abs e)) in *. clearbody ds.
  assert (Hp : forall sign, (sign = minus_sign \/ sign = plus_sign) ->
            exponent_part (lit "e" ++ [sign] ++ ds)
            = if (sign =? minus_sign)%N then - Z.abs e else Z.abs e).
  { intros sign Hs. change (lit "e" ++ [sign] ++ ds) with (101%N :: sign :: ds).
    unfold exponent_part. cbn [is_exponent_indicator N.eqb Pos.eqb orb].
    unfold strip_sign.
    destruct Hs as [-> | ->]; cbn [N.eqb Pos.eqb minus_sign plus_sign];
      rewrite (take_while_digits_all _ Hd);
      (destruct ds as [|c0 l]; [congruence|]); now rewrite Hv. }
  destruct (e <? 0) eqn:He.
  - apply Z.ltb_lt in He. change (lit "-") with [minus_sign].
    rewrite Hp by auto. rewrite N.eqb_refl. lia.
  - apply Z.ltb_ge in He. change (lit "+") with [plus_sign].
    rewrite Hp by auto.
    change (plus_sign =? minus_sign)%N with false. cbv iota. lia.
Qed.

Lemma unsigned_literal_plain int t e :
  int <> [] -> forallb is_digit int = true -> literal_tail t e ->
  unsigned_literal (int ++ t)
  = Some (inject_Z (digits_value 10 digit_value int) * 10 ^ e)%Q.
Proof.
  intros Hne Hint Ht. unfold unsigned_literal.
  destruct (literal_tail_head t e Ht) as [Hdig Hdot].
  rewrite (take_while_app _ int t Hint Hdig), skipn_len_app.
  assert (Hf : fraction_part t = ([], t)).
  { unfold fraction_part. destruct t as [|c t]; [reflexivity|]. now rewrite Hdot. }
  rewrite Hf, app_nil_r, (exponent_part_tail t e Ht).
  destruct int as [|c int]; [congruence|].
  change (len []) with 0. now rewrite Z.sub_0_r.
Qed.

Lemma unsigned_literal_point int frac t e :
  int <> [] -> forallb is_digit int = true -> forallb is_digit frac = true ->
  literal_tail t e ->
  unsigned_literal (int ++ lit "." ++ frac ++ t)
  = Some (inject_Z (digits_value 10 digit_value (int ++ frac)) * 10 ^ (e - len frac))%Q.
Proof.
  intros Hne Hint Hfrac Ht. unfold unsigned_literal.
  destruct (literal_tail_head t e Ht) as [Hdig _].
  rewrite (take_while_app _ int (lit "." ++ frac ++ t) Hint eq_refl), skipn_len_app.
  change (lit "." ++ frac ++ t) with (full_stop :: frac ++ t).
  unfold fraction_part. rewrite N.eqb_refl.
  rewrite (take_while_app _ frac t Hfrac Hdig), skipn_len_app.
  rewrite (exponent_part_tail t e Ht).
  destruct int as [|c int]; [congruence|]. reflexivity.
Qed.

Lemma parseFloat_str_digit c s :
  is_digit c = true ->
  parseFloat_str (c :: s) =
  match unsigned_literal (c :: s) with
  | None => NaN
  | Some mv => round_double mv
  end.
Proof.
  intros Hc. destruct (digit_not_special c Hc) as (Hsp & Hm & Hp & _ & HI).
  unfold parseFloat_str, trim_start. cbn [drop_while]. rewrite Hsp.
  unfold strip_sign. rewrite Hm, Hp.
  change (lit "Infinity") with (73%N :: lit "nfinity").
  cbn [starts_with]. rewrite HI. reflexivity.
Qed.

Lemma parseFloat_str_plain int t e :
  int <> [] -> forallb is_digit int = true -> literal_tail t e ->
  parseFloat_str (int ++ t)
  = round_double (inject_Z (digits_value 10 digit_value int) * 10 ^ e)%Q.
Proof.
  intros Hne Hint Ht.
  pose proof (unsigned_literal_plain int t e Hne Hint Ht) as Hu.
  destruct int as [|c int]; [congruence|].
  cbn [forallb] in Hint. apply andb_true_iff in Hint as [Hc _].
  cbn [app] in *. now rewrite (parseFloat_str_digit c _ Hc), Hu.
Qed.

Lemma parseFloat_str_point int frac t e :
  int <> [] -> forallb is_digit int = true -> forallb is_digit frac = true ->
  literal_tail t e ->
  parseFloat_str (int ++ lit "." ++ frac ++ t)
  = round_double
      (inject_Z (digits_value 10 digit_value (int ++ frac)) * 10 ^ (e - len frac))%Q.
Proof.
  intros Hne Hint Hfrac Ht.
  pose proof (unsigned_literal_point int frac t e Hne Hint Hfrac Ht) as Hu.
  destruct int as [|c int]; [congruence|].
  cbn [forallb] in Hint. apply andb_true_iff in Hint as [Hc _].
  cbn [app] in *. now rewrite (parseFloat_str_digit c _ Hc), Hu.
Qed.

Lemma firstn_skipn_digits (n : nat) ds :
  forallb is_digit ds = true ->
  forallb is_digit (firstn n ds) = true /\ forallb is_digit (skipn n ds) = true.
Proof.
  intros H. rewrite <- (firstn_skipn n ds), forallb_app in H.
  now apply andb_true_iff in H.
Qed.

Lemma firstn_nonempty (n : nat) (ds : jsstring) :
  (1 <= n)%nat -> ds <> [] -> firstn n ds <> [].
Proof. destruct n, ds; simpl; intros; congruence || lia. Qed.

Lemma len_skipn (n : Z) ds : 0 <= n <= len ds -> len (skipn (Z.to_nat n) ds) = len ds - n.
Proof. intros H. unfold len in *. rewrite length_skipn. lia. Qed.

(** A candidate [(n, k, s)] with [k] digits in [s], written by
    [format_number], reads back as [s * 10^(n-k)] rounded. *)
Lemma parseFloat_str_format n k s :
  1 <= k -> 10 ^ (k - 1) <= s < 10 ^ k ->
  parseFloat_str (format_number (n, k, s)) = round_double (candidate_value (n, k, s)).
Proof.
  intros Hk Hs.
  assert (Hs0 : 0 <= s).
  { pose proof (Z.pow_pos_nonneg 10 (k - 1) ltac:(lia) ltac:(lia)). lia. }
  pose proof (decimal_digits s Hs0) as Hd.
  pose proof (decimal_value s Hs0) as Hv.
  pose proof (decimal_nonempty s Hs0) as Hne.
  pose proof (decimal_len_unique k s Hk Hs) as Hl.
  unfold format_number, candidate_value.
  set (ds := decimal s) in *. clearbody ds.
  destruct ((k <=? n) && (n <=? 21)) eqn:Ca.
  { apply andb_true_iff in Ca as [Hkn _]. apply Z.leb_le in Hkn.
    rewrite <- (app_nil_r (ds ++ zeros (n - k))).
    rewrite (parseFloat_str_plain (ds ++ zeros (n - k)) [] 0).
    - apply round_double_comp.
      rewrite digits_value_app, zeros_value, zeros_len, Hv, Z.add_0_r by lia.
      rewrite inject_Z_mult, Zpower_Qpower by lia.
      change (inject_Z 10) with 10%Q. change (10 ^ 0)%Q with 1%Q. ring.
    - destruct ds; [congruence | discriminate].
    - rewrite forallb_app, Hd. apply zeros_digits.
    - left. auto. }
  destruct ((0 <? n) && (n <=? 21)) eqn:Cb.
  { apply andb_true_iff in Cb as [Hn0 Hn21].
    apply Z.ltb_lt in Hn0. apply Z.leb_le in Hn21.
    assert (Hnk : n < k).
    { apply andb_false_iff in Ca as [C|C]; apply Z.leb_gt in C; lia. }
    destruct (firstn_skipn_digits (Z.to_nat n) ds Hd) as [Hf Hsk].
    rewrite <- (app_nil_r (skipn (Z.to_nat n) ds)).
    rewrite (parseFloat_str_point _ _ [] 0);
      [| apply firstn_nonempty; [lia | exact Hne] | exact Hf | exact Hsk | left; auto].
    rewrite firstn_skipn, Hv, len_skipn, Hl by lia.
    f_equal. f_equal. f_equal. lia. }
  destruct ((-6 <? n) && (n <=? 0)) eqn:Cc.
  { apply andb_true_iff in Cc as [_ Hn0]. apply Z.leb_le in Hn0.
    change (lit "0." ++ zeros (- n) ++ ds)
      with (lit "0" ++ lit "." ++ (zeros (- n) ++ ds)).
    rewrite <- (app_nil_r (zeros (- n) ++ ds)).
    rewrite (parseFloat_str_point (lit "0") _ [] 0);
      [| discriminate | reflexivity
       | rewrite forallb_app, Hd; apply andb_true_iff; split;
         [apply zeros_digits | reflexivity]
       | left; auto].
    rewrite !digits_value_app, zeros_value, Hv, !len_app, zeros_len, Hl by lia.
    change (digits_value 10 digit_value (lit "0")) with 0.
    replace (0 * 10 ^ (- n + k) + (0 * 10 ^ k + s)) with s by lia.
    replace (0 - (- n + k)) with (n - k) by lia. reflexivity. }
  destruct (k =? 1) eqn:Ck.
  { apply Z.eqb_eq in Ck.
    rewrite (parseFloat_str_plain ds _ (n - 1)); [| exact Hne | exact Hd | right; auto].
    now rewrite Hv, Ck. }
  apply Z.eqb_neq in Ck.
  destruct (firstn_skipn_digits 1 ds Hd) as [Hf Hsk].
  rewrite (parseFloat_str_point _ _ _ (n - 1));
    [| apply firstn_nonempty; [lia | exact Hne] | exact Hf | exact Hsk | right; auto].
  rewrite firstn_skipn, Hv.
  change 1%nat with (Z.to_nat 1). rewrite len_skipn, Hl by lia.
  f_equal. f_equal. f_equal. lia.
Qed.

(** ** The shortest digits round-trip *)

Lemma closer_either x c1 c2 : closer x c1 c2 = c1 \/ closer x c1 c2 = c2.
Proof.
  unfold closer. destruct (Qltb _ _); [auto|].
  destruct (Qltb _ _); [auto|]. destruct (Z.even _); auto.
Qed.

Lemma candidate_ok_digits x n k s :
  candidate_ok x (n, k, s) = true -> 10 ^ (k - 1) <= s < 10 ^ k.
Proof.
  unfold candidate_ok. intros H.
  apply andb_true_iff in H as [H _]. apply andb_true_iff in H as [H1 H2].
  apply Z.leb_le in H1. apply Z.ltb_lt in H2. lia.
Qed.

Lemma shortest_ok fuel x n0 k :
  1 <= k ->
  (exists j, 0 <= j < Z.of_nat fuel /\ candidate_ok x (floor_candidate x n0 (k + j)) = true) ->
  1 <= snd (fst (shortest fuel x n0 k)) /\
  candidate_ok x (shortest fuel x n0 k) = true.
Proof.
  revert k. induction fuel as [|fuel IH]; intros k Hk (j & Hj & Hok); [lia|].
  cbn [shortest].
  set (lo := Qfloor (x / 10 ^ (n0 - k))%Q).
  set (c1 := (n0, k, lo)).
  set (c2 := if lo + 1 <? 10 ^ k then (n0, k, lo + 1) else (n0 + 1, k, 10 ^ (k - 1))).
  assert (Hk2 : snd (fst c2) = k) by (subst c2; destruct (_ <? _); reflexivity).
  destruct (candidate_ok x c1) eqn:H1; destruct (candidate_ok x c2) eqn:H2.
  - destruct (closer_either x c1 c2) as [-> | ->]; [subst c1|]; cbn; split; auto; lia.
  - subst c1; cbn; split; auto.
  - split; [lia | auto].
  - apply IH; [lia|].
    assert (j <> 0).
    { intros ->. rewrite Z.add_0_r in Hok. unfold floor_candidate in Hok.
      fold lo in Hok. fold c1 in Hok. congruence. }
    exists (j - 1). split; [lia|].
    now replace (k + 1 + (j - 1)) with (k + j) by lia.
Qed.

Lemma ten_pow_pos e : (0 < 10 ^ e)%Q.
Proof. apply Qpower_0_lt. reflexivity. Qed.

Lemma ten_pow_add a b : (10 ^ (a + b) == 10 ^ a * 10 ^ b)%Q.
Proof. apply Qpower_plus. discriminate. Qed.

Lemma ten_pow_inject n : 0 <= n -> (inject_Z (10 ^ n) == 10 ^ n)%Q.
Proof. intros H. now rewrite Zpower_Qpower. Qed.

Lemma ten_pow_cancel a : (10 ^ (- a) * 10 ^ a == 1)%Q.
Proof. rewrite <- ten_pow_add. now replace (- a + a) with 0 by lia. Qed.

Lemma scale_below_ten_pow_400 : scale <= 10 ^ 400.
Proof. apply Z.leb_le. vm_compute. reflexivity. Qed.

Lemma ten_pow_1074 : 10 ^ 1074 = scale * 5 ^ 1074.
Proof. apply Z.eqb_eq. vm_compute. reflexivity. Qed.

Lemma binary64_positive x :
  binary64 x -> (0 < x)%Q -> exists X, 1 <= X /\ (x == X # scale_pos)%Q.
Proof.
  intros (m & k & _ & _ & Hx) Hpos. exists (m * 2 ^ k). split; [|exact Hx].
  rewrite Hx in Hpos. unfold Qlt in Hpos. simpl in Hpos.
  lia.
Qed.

Lemma decimal_exponent_spec x :
  (1 # scale_pos <= x)%Q ->
  (10 ^ (decimal_exponent x - 1) <= x /\ x < 10 ^ decimal_exponent x)%Q.
Proof.
  intros Hx. unfold decimal_exponent.
  set (y := (x * 10 ^ 400)%Q). set (F := Qfloor y).
  assert (Hy1 : (inject_Z 1 <= y)%Q).
  { subst y. rewrite <- ten_pow_inject by lia.
    pose proof scale_below_ten_pow_400 as Hs.
    set (T := 10 ^ 400) in *. clearbody T.
    apply Qle_trans with ((1 # scale_pos) * inject_Z T)%Q.
    - unfold Qle, scale in *. simpl. lia.
    - apply Qmult_le_compat_r; [exact Hx|]. unfold Qle. simpl. unfold scale in Hs. lia. }
  assert (HF1 : 1 <= F).
  { subst F. rewrite <- (Qfloor_Z 1). now apply Qfloor_resp_le. }
  destruct (decimal_len F ltac:(lia)) as [HL Hb]. specialize (Hb HF1).
  set (L := len (decimal F)) in *. clearbody L.
  assert (Hlo : (10 ^ (L - 1) <= y)%Q).
  { rewrite <- ten_pow_inject by lia.
    apply Qle_trans with (inject_Z F); [|apply Qfloor_le].
    rewrite <- Zle_Qle. lia. }
  assert (Hhi : (y < 10 ^ L)%Q).
  { rewrite <- ten_pow_inject by lia.
    apply Qlt_le_trans with (inject_Z (F + 1)); [apply Qlt_floor|].
    rewrite <- Zle_Qle. lia. }
  assert (Hxy : (x == y * 10 ^ (-400))%Q).
  { subst y. rewrite <- Qmult_assoc, (Qmult_comm (10 ^ 400)), (ten_pow_cancel 400).
    now rewrite Qmult_1_r. }
  pose proof (ten_pow_pos (-400)) as Hp.
  split.
  - replace (L - 400 - 1) with ((L - 1) + -400) by lia.
    rewrite ten_pow_add, Hxy. apply Qmult_le_compat_r; [exact Hlo | now apply Qlt_le_weak].
  - replace (L - 400) with (L + -400) by lia.
    rewrite ten_pow_add, Hxy. now apply Qmult_lt_compat_r.
Qed.

Lemma exact_candidate_ok x :
  binary64 x -> (0 < x)%Q ->
  let n0 := decimal_exponent x in
  1 <= n0 + 1074 /\
  candidate_ok x (floor_candidate x n0 (n0 + 1074)) = true.
Proof.
  intros Hb Hpos n0.
  destruct (binary64_positive x Hb Hpos) as (X & HX & Hx).
  assert (Hmin : (1 # scale_pos <= x)%Q).
  { rewrite Hx. unfold Qle. simpl. apply Z.mul_le_mono_nonneg_r; lia. }
  destruct (decimal_exponent_spec x Hmin) as [Hlo Hhi]. fold n0 in Hlo, Hhi.
  set (S := X * 5 ^ 1074).
  assert (HS1 : 1 <= S).
  { subst S. pose proof (Z.pow_pos_nonneg 5 1074 ltac:(lia) ltac:(lia)). nia. }
  assert (HSx : (inject_Z S == x * 10 ^ 1074)%Q).
  { rewrite <- ten_pow_inject, ten_pow_1074, Hx by lia. subst S.
    set (F5 := 5 ^ 1074). clearbody F5.
    unfold Qeq, scale. simpl. rewrite Pos.mul_1_r. ring. }
  pose proof (ten_pow_pos 1074) as Hp.
  assert (HSlo : (10 ^ (n0 + 1074 - 1) <= inject_Z S)%Q).
  { replace (n0 + 1074 - 1) with ((n0 - 1) + 1074) by lia.
    rewrite ten_pow_add, HSx.
    apply Qmult_le_compat_r; [exact Hlo | now apply Qlt_le_weak]. }
  assert (HShi : (inject_Z S < 10 ^ (n0 + 1074))%Q).
  { rewrite ten_pow_add, HSx. now apply Qmult_lt_compat_r. }
  assert (HK : 1 <= n0 + 1074).
  { assert (0 < n0 + 1074); [|lia].
    apply (Qpower_lt_compat_l_inv 10); [|reflexivity].
    eapply Qle_lt_trans; [|exact HShi].
    change (10 ^ 0)%Q with (inject_Z 1). rewrite <- Zle_Qle. exact HS1. }
  split; [exact HK|].
  assert (Hval : (inject_Z S * 10 ^ (n0 - (n0 + 1074)) == x)%Q).
  { replace (n0 - (n0 + 1074)) with (- 1074) by lia.
    rewrite HSx, <- Qmult_assoc, (Qmult_comm (10 ^ 1074)), (ten_pow_cancel 1074).
    apply Qmult_1_r. }
  assert (Hfloor : Qfloor (x / 10 ^ (n0 - (n0 + 1074)))%Q = S).
  { rewrite <- (Qfloor_Z S). apply Qfloor_comp.
    replace (n0 - (n0 + 1074)) with (- 1074) by lia.
    rewrite HSx. unfold Qdiv. rewrite <- Qpower_opp.
    now replace (- - 1074) with 1074 by lia. }
  unfold floor_candidate. rewrite Hfloor. unfold candidate_ok, candidate_value.
  rewrite (round_double_comp _ x Hval).
  rewrite (round_double_id x Hb (Qlt_le_weak _ _ Hpos)).
  rewrite <- ten_pow_inject in HSlo, HShi by lia.
  rewrite <- Zle_Qle in HSlo. rewrite <- Zlt_Qlt in HShi.
  apply andb_true_iff. split; [apply andb_true_iff; split|].
  - now apply Z.leb_le.
  - now apply Z.ltb_lt.
  - apply Qeq_bool_iff, Qred_correct.
Qed.

Lemma binary64_comp x y : (x == y)%Q -> binary64 x -> binary64 y.
Proof.
  intros Hxy (m & k & Hm & Hk & Hx). exists m, k. repeat split; try lia.
  now rewrite <- Hxy.
Qed.

Lemma Qltb_false_nonneg q : (0 <= q)%Q -> Qltb q 0 = false.
Proof.
  intros H. unfold Qltb. apply negb_false_iff. now apply Qle_bool_iff.
Qed.

(** A non-negative Number written by [number_to_string] and read by
    [parseFloat_str] is the same Number. *)
Lemma parseFloat_number_to_string x :
  binary64 x -> (0 <= x)%Q ->
  parseFloat_str (number_to_string (Fin x)) = Fin (Qred x).
Proof.
  intros Hb Hpos. unfold number_to_string. cbv zeta.
  pose proof (Qred_correct x) as Hq. set (q := Qred x) in *.
  destruct (Qeq_bool q 0) eqn:Hz.
  - apply Qeq_bool_iff in Hz.
    assert (Hq0 : q = Qred 0) by (subst q; apply Qred_complete; now rewrite <- Hq).
    rewrite Hq0. vm_compute. reflexivity.
  - assert (Hqpos : (0 < q)%Q).
    { apply Qle_lteq in Hpos as [Hlt|Heq]; [now rewrite Hq|].
      exfalso. assert (Hq0 : (q == 0)%Q) by (now rewrite Hq, <- Heq).
      apply Qeq_bool_iff in Hq0. congruence. }
    rewrite (Qltb_false_nonneg q (Qlt_le_weak _ _ Hqpos)). cbn [app].
    assert (Hxa : (Qabs q == x)%Q) by (rewrite Qabs_pos; [exact Hq | now apply Qlt_le_weak]).
    set (xa := Qabs q) in *. clearbody xa.
    assert (Hba : binary64 xa) by (apply (binary64_comp x); [now symmetry | exact Hb]).
    assert (Hpa : (0 < xa)%Q) by (now rewrite Hxa, <- Hq).
    destruct (exact_candidate_ok xa Hba Hpa) as [HK Hex].
    set (n0 := decimal_exponent xa) in *. clearbody n0.
    destruct (shortest_ok (Z.to_nat (n0 + 1074)) xa n0 1 ltac:(lia)) as [Hk Hok].
    { exists (n0 + 1074 - 1). split; [lia|].
      now replace (1 + (n0 + 1074 - 1)) with (n0 + 1074) by lia. }
    destruct (shortest (Z.to_nat (n0 + 1074)) xa n0 1) as [[n k] s].
    cbn [fst snd] in Hk.
    pose proof (candidate_ok_digits xa n k s Hok) as Hs.
    rewrite (parseFloat_str_format n k s Hk Hs).
    unfold candidate_ok in Hok. apply andb_true_iff in Hok as [_ Hr].
    destruct (round_double (candidate_value (n, k, s))) as [| |y] eqn:Hy;
      try discriminate.
    apply Qeq_bool_iff in Hr.
    assert (Hcv : (0 <= candidate_value (n, k, s))%Q).
    { unfold candidate_value. apply Qmult_le_0_compat.
      - pose proof (Z.pow_pos_nonneg 10 (k - 1) ltac:(lia) ltac:(lia)).
        change 0%Q with (inject_Z 0). rewrite <- Zle_Qle. lia.
      - apply Qlt_le_weak, ten_pow_pos. }
    destruct (round_double_binary64 _ y Hcv Hy) as (_ & _ & Hcanon).
    f_equal. rewrite <- Hcanon. apply Qred_complete. now rewrite Hr.
Qed.

(** ** Two fraction digits *)

Lemma Qfloor_unique q n :
  (inject_Z n <= q)%Q -> (q < inject_Z (n + 1))%Q -> Qfloor q = n.
Proof.
  intros Hlo Hhi.
  assert (n <= Qfloor q).
  { rewrite <- (Qfloor_Z n). now apply Qfloor_resp_le. }
  assert (Qfloor q < n + 1).
  { rewrite Zlt_Qlt. eapply Qle_lt_trans; [apply Qfloor_le | exact Hhi]. }
  lia.
Qed.

Lemma hundredths_nonneg x : (0 <= x)%Q -> 0 <= hundredths x.
Proof.
  intros H. unfold hundredths. rewrite <- (Qfloor_Z 0).
  apply Qfloor_resp_le. change (inject_Z 0) with 0%Q. lra.
Qed.

Lemma hundredths_comp x y : (x == y)%Q -> hundredths x = hundredths y.
Proof. intros H. unfold hundredths. apply Qfloor_comp. now rewrite H. Qed.

Lemma fixed_digits_shape n :
  0 <= n ->
  exists a b,
    fixed_digits n = a ++ lit "." ++ b /\
    a <> [] /\ forallb is_digit a = true /\ forallb is_digit b = true /\
    len b = 2 /\ digits_value 10 digit_value (a ++ b) = n.
Proof.
  intros Hn. unfold fixed_digits. cbv zeta.
  pose proof (decimal_digits n Hn) as Hd.
  pose proof (decimal_value n Hn) as Hv.
  destruct (decimal_len n Hn) as [Hl _].
  set (m := decimal n) in *. clearbody m.
  set (m' := if len m <=? 2 then zeros (3 - len m) ++ m else m).
  assert (Hm' : forallb is_digit m' = true /\ 3 <= len m' /\
                digits_value 10 digit_value m' = n).
  { subst m'. destruct (len m <=? 2) eqn:E.
    - apply Z.leb_le in E.
      rewrite forallb_app, zeros_digits, Hd, len_app, zeros_len,
        digits_value_app, zeros_value, Hv by lia.
      repeat split; lia.
    - apply Z.leb_gt in E. repeat split; auto; lia. }
  clearbody m'. destruct Hm' as (Hd' & Hl' & Hv').
  exists (firstn (Z.to_nat (len m' - 2)) m'), (skipn (Z.to_nat (len m' - 2)) m').
  destruct (firstn_skipn_digits (Z.to_nat (len m' - 2)) m' Hd') as [Hf Hs].
  repeat split; auto.
  - apply firstn_nonempty; [lia|]. intros ->. unfold len in Hl'. simpl in Hl'. lia.
  - rewrite len_skipn by lia. lia.
  - now rewrite firstn_skipn.
Qed.

Lemma toFixed2_small x :
  (0 <= x)%Q -> (x < 10 ^ 21)%Q ->
  toFixed2 (Fin x) = fixed_digits (hundredths x).
Proof.
  intros Hpos Hlt. unfold toFixed2. cbv zeta.
  pose proof (Qred_correct x) as Hq. set (q := Qred x) in *. clearbody q.
  assert (Hq0 : (0 <= q)%Q) by now rewrite Hq.
  rewrite (Qltb_false_nonneg q Hq0). cbn [app].
  assert (Hxa : (Qabs q == x)%Q) by (now rewrite Qabs_pos).
  set (xa := Qabs q) in *. clearbody xa.
  assert (Hbig : Qle_bool (10 ^ 21) xa = false).
  { destruct (Qle_bool (10 ^ 21) xa) eqn:E; [|reflexivity].
    apply Qle_bool_iff in E. rewrite Hxa in E.
    exfalso. apply (Qlt_irrefl x). eapply Qlt_le_trans; eassumption. }
  now rewrite Hbig, (hundredths_comp xa x Hxa).
Qed.

Lemma toFixed2_large x :
  (10 ^ 21 <= x)%Q ->
  toFixed2 (Fin x) = number_to_string (Fin x).
Proof.
  intros Hbig. unfold toFixed2. cbv zeta.
  pose proof (Qred_correct x) as Hq.
  assert (Hpos : (0 <= Qred x)%Q).
  { rewrite Hq. eapply Qle_trans; [|exact Hbig]. apply Qlt_le_weak, ten_pow_pos. }
  rewrite (Qltb_false_nonneg _ Hpos). cbn [app].
  assert (Hxa : (Qabs (Qred x) == x)%Q) by (now rewrite Qabs_pos).
  assert (Hle : Qle_bool (10 ^ 21) (Qabs (Qred x)) = true).
  { apply Qle_bool_iff. now rewrite Hxa. }
  rewrite Hle. unfold number_to_string.
  now rewrite (Qred_complete _ _ Hxa).
Qed.

Lemma parseFloat_fixed_digits n :
  0 <= n ->
  parseFloat_str (fixed_digits n) = round_double (inject_Z n * (1 # 100))%Q.
Proof.
  intros Hn.
  destruct (fixed_digits_shape n Hn) as (a & b & -> & Ha & Hda & Hdb & Hlb & Hv).
  rewrite <- (app_nil_r b).
  rewrite (parseFloat_str_point a b [] 0 Ha Hda Hdb) by (left; auto).
  rewrite Hv, Hlb. reflexivity.
Qed.

(** ** Formatting a price twice *)

Lemma round_double_small q :
  (0 <= q)%Q -> (q <= 10 ^ 22)%Q -> exists d, round_double q = Fin d.
Proof.
  intros Hpos Hle. unfold round_double. cbv zeta.
  rewrite <- (Qred_correct q) in Hle.
  pose proof (Qred_nonneg q Hpos) as Ha.
  set (a := Qnum (Qred q)) in *. set (b := QDen (Qred q)).
  assert (Hab : a <= 10 ^ 22 * b).
  { unfold Qle in Hle. simpl in Hle. subst a b.
    destruct (Qred q) as [qa qb]. simpl in *. lia. }
  rewrite (Z.abs_eq a Ha).
  destruct (nearest_scaled_spec a b Ha ltac:(subst b; lia))
    as (_ & _ & _ & _ & _ & _ & Hnear).
  specialize (Hnear 0 0 ltac:(lia) ltac:(lia)).
  set (N := nearest_scaled a b) in *. clearbody N.
  assert (Hb : 0 < b) by (subst b; lia). clearbody a b.
  pose proof scale_positive as Hs.
  assert (HN : N * b <= 2 * (10 ^ 22 * scale) * b) by nia.
  assert (HN' : N <= 2 * (10 ^ 22 * scale)) by nia.
  assert (Hlim : 2 * (10 ^ 22 * scale) < 2 ^ 2098).
  { apply Z.ltb_lt. vm_compute. reflexivity. }
  destruct (2 ^ 2098 <=? N) eqn:Hov; [apply Z.leb_le in Hov; lia|].
  eauto.
Qed.

Lemma scale_not_multiple_of_100 D : D * 100 <> scale.
Proof.
  intros H.
  assert (Hm : scale mod 100 = 0) by (rewrite <- H; apply Z.mod_mul; lia).
  revert Hm. vm_compute. discriminate.
Qed.

(** Two binary64 values are never exactly one hundredth apart. *)
Lemma no_hundredth_gap d x :
  binary64 d -> binary64 x -> ~ (d - x == 1 # 100)%Q.
Proof.
  intros (md & kd & _ & _ & Hd) (mx & kx & _ & _ & Hx) H.
  rewrite Hd, Hx in H.
  set (D := md * 2 ^ kd) in *. set (X := mx * 2 ^ kx) in *. clearbody D X.
  unfold Qeq, Qminus, Qplus, Qopp in H. simpl in H.
  rewrite Pos2Z.inj_mul in H. fold scale in H.
  pose proof scale_positive as Hs.
  apply (scale_not_multiple_of_100 (D - X)).
  assert (Hc : ((D - X) * 100) * scale = scale * scale) by lia.
  apply Z.mul_cancel_r in Hc; lia.
Qed.

Lemma binary64_large_integer x :
  binary64 x -> (inject_Z (2 ^ 53) <= x)%Q -> exists z, (x == inject_Z z)%Q.
Proof.
  intros (m & k & Hm & Hk & Hx) Hbig.
  rewrite Hx in Hbig. unfold Qle in Hbig. simpl in Hbig. fold scale in Hbig.
  rewrite scale_value in Hbig.
  assert (Hp2 : 0 < 2 ^ k) by (apply Z.pow_pos_nonneg; lia).
  assert (Hk' : 1074 < k).
  { destruct (Z_lt_le_dec 1074 k) as [|Hle]; [assumption|]. exfalso.
    assert (2 ^ k <= 2 ^ 1074) by (apply Z.pow_le_mono_r; lia).
    assert (Hp : 0 < 2 ^ 1074) by (apply Z.pow_pos_nonneg; lia).
    assert (m * 2 ^ k < 2 ^ 53 * 2 ^ 1074) by nia.
    lia. }
  exists (m * 2 ^ (k - 1074)). rewrite Hx.
  unfold Qeq. simpl. fold scale. rewrite scale_value.
  replace k with ((k - 1074) + 1074) at 1 by lia.
  rewrite Z.pow_add_r by lia. ring.
Qed.

(** The heart of the matter: for a binary64 [x] in [0, 10^21), the Number
    read back from the two-digit rendering of [x] is again below [10^21]
    and has the same hundredths as [x]. *)
Lemma reparse_same_hundredths x :
  binary64 x -> (0 <= x)%Q -> (x < 10 ^ 21)%Q ->
  exists d,
    round_double (inject_Z (hundredths x) * (1 # 100))%Q = Fin d /\
    binary64 d /\ (0 <= d)%Q /\ (d < 10 ^ 21)%Q /\ Qred d = d /\
    hundredths d = hundredths x.
Proof.
  intros Hb Hpos Hlt.
  pose proof (hundredths_nonneg x Hpos) as Hn0.
  pose proof (Qfloor_le (x * 100 + (1 # 2))%Q) as Hlo.
  pose proof (Qlt_floor (x * 100 + (1 # 2))%Q) as Hhi.
  fold (hundredths x) in Hlo, Hhi. rewrite inject_Z_plus in Hhi.
  change (inject_Z 1) with 1%Q in Hhi.
  assert (Hnq : (0 <= inject_Z (hundredths x))%Q).
  { change 0%Q with (inject_Z 0). now rewrite <- Zle_Qle. }
  set (nq := inject_Z (hundredths x)) in *.
  set (y := (nq * (1 # 100))%Q).
  assert (Hlim : (10 ^ 21 == 1000000000000000000000)%Q) by reflexivity.
  assert (Hlim2 : (10 ^ 22 == 10000000000000000000000)%Q) by reflexivity.
  set (T21 := (10 ^ 21)%Q) in *. set (T22 := (10 ^ 22)%Q) in *. clearbody T21 T22.
  assert (Hy0 : (0 <= y)%Q) by (subst y; lra).
  destruct (round_double_small y Hy0 ltac:(subst y; lra)) as [d Hd].
  exists d. split; [exact Hd|].
  destruct (round_double_binary64 y d Hy0 Hd) as (Hbd & Hd0 & Hcanon).
  pose proof (round_double_nearest y d x Hy0 Hd Hb) as Hnear.
  assert (Hxy : (Qabs (x - y) <= 1 # 200)%Q).
  { apply Qabs_Qle_condition. subst y. lra. }
  assert (Hdy : (- (1 # 200) <= d - y <= 1 # 200)%Q).
  { apply Qabs_Qle_condition. eapply Qle_trans; eassumption. }
  assert (Hstrict : (d - y < 1 # 200)%Q).
  { destruct (Qlt_le_dec (d - y) (1 # 200)) as [|Hge]; [assumption|]. exfalso.
    assert (Hge' : (1 # 200 <= Qabs (x - y))%Q).
    { eapply Qle_trans; [|exact Hnear]. eapply Qle_trans; [exact Hge|apply Qle_Qabs]. }
    apply (no_hundredth_gap d x Hbd Hb).
    revert Hge'. apply Qabs_case; intros; subst y; lra. }
  assert (Hd21 : (d < T21)%Q).
  { destruct (Qlt_le_dec x (inject_Z (2 ^ 53))) as [Hsmall|Hlarge].
    - assert (Hc : (inject_Z (2 ^ 53) == 9007199254740992)%Q) by reflexivity.
      subst y.
      lra.
    - destruct (binary64_large_integer x Hb Hlarge) as [z Hz].
      assert (Hz21 : z < 10 ^ 21).
      { rewrite Zlt_Qlt. rewrite <- Hz. change (inject_Z (10 ^ 21)) with 1000000000000000000000%Q.
        lra. }
      assert (Hz' : (inject_Z z <= inject_Z (10 ^ 21 - 1))%Q) by (rewrite <- Zle_Qle; lia).
      change (inject_Z (10 ^ 21 - 1)) with 999999999999999999999%Q in Hz'.
      subst y. lra. }
  repeat split; try assumption.
  apply Qfloor_unique.
  - fold nq. subst y. lra.
  - rewrite inject_Z_plus. change (inject_Z 1) with 1%Q. fold nq. subst y. lra.
Qed.

Lemma toFixed2_Qred x : toFixed2 (Fin (Qred x)) = toFixed2 (Fin x).
Proof.
  unfold toFixed2. now rewrite (Qred_complete _ _ (Qred_correct x)).
Qed.

Lemma formatPrice_number x :
  binary64 x -> (0 <= x)%Q ->
  formatPrice (VNum (Fin x)) = lit "$" ++ toFixed2 (Fin x).
Proof.
  intros Hb Hpos. unfold formatPrice, parseFloat. cbn [to_string].
  now rewrite (parseFloat_number_to_string x Hb Hpos), toFixed2_Qred.
Qed.

Lemma fixed_digits_two_decimals n :
  0 <= n -> two_decimal_price (lit "$" ++ fixed_digits n) = true.
Proof.
  intros Hn.
  destruct (fixed_digits_shape n Hn) as (a & b & -> & Ha & Hda & Hdb & Hlb & _).
  unfold two_decimal_price, re_price. apply test_anchored_spec.
  constructor; [now constructor|].
  constructor; [apply matches_plus_class; auto|].
  constructor; [now constructor|].
  apply matches_repeat_class. split; [|exact Hdb].
  unfold len in Hlb. lia.
Qed.

(** Below [10^21] the digits written for [x], read without their full
    stop, are the integer within half a unit of [100 x], the larger one
    when two are as near. *)
Lemma toFixed2_cents x :
  (0 <= x)%Q -> (x < 10 ^ 21)%Q ->
  exists a b,
    toFixed2 (Fin x) = a ++ lit "." ++ b /\
    a <> [] /\ forallb is_digit a = true /\ forallb is_digit b = true /\ len b = 2 /\
    let cents := inject_Z (digits_value 10 digit_value (a ++ b)) in
    (x * 100 - (1 # 2) < cents)%Q /\ (cents <= x * 100 + (1 # 2))%Q.
Proof.
  intros Hpos Hsmall. rewrite (toFixed2_small x Hpos Hsmall).
  destruct (fixed_digits_shape _ (hundredths_nonneg x Hpos))
    as (a & b & -> & Ha & Hda & Hdb & Hlb & Hv).
  exists a, b. repeat split; auto; cbv zeta; rewrite Hv; unfold hundredths.
  - pose proof (Qlt_floor (x * 100 + (1 # 2))) as H.
    rewrite inject_Z_plus in H. change (inject_Z 1) with 1%Q in H. lra.
  - apply Qfloor_le.
Qed.

(** C9, as the code has it: formatting the Number read back from a
    formatted price (without its currency symbol) gives the same string,
    for every binary64 [x >= 0]; and below [10^21] the formatted price is
    the currency symbol followed by the value with exactly two decimal
    places: digits, a full stop and two digits, which read without the
    full stop are the integer nearest to [100 x] (the larger one when two
    are as near). *)
Theorem formatPrice_idempotent (x : Q) :
  binary64 x -> (0 <= x)%Q ->
  formatPrice (VNum (parseFloat (VStr (numeric_part (formatPrice (VNum (Fin x)))))))
  = formatPrice (VNum (Fin x)) /\
  ((x < 10 ^ 21)%Q ->
   two_decimal_price (formatPrice (VNum (Fin x))) = true /\
   exists a b,
     formatPrice (VNum (Fin x)) = lit "$" ++ a ++ lit "." ++ b /\
     a <> [] /\ forallb is_digit a = true /\ forallb is_digit b = true /\ len b = 2 /\
     let cents := inject_Z (digits_value 10 digit_value (a ++ b)) in
     (x * 100 - (1 # 2) < cents)%Q /\ (cents <= x * 100 + (1 # 2))%Q).
Proof.
  intros Hb Hpos. rewrite (formatPrice_number x Hb Hpos).
  change (numeric_part (lit "$" ++ toFixed2 (Fin x))) with (toFixed2 (Fin x)).
  unfold parseFloat. cbn [to_string].
  destruct (Qlt_le_dec x (10 ^ 21)) as [Hsmall|Hlarge].
  - split.
    + rewrite (toFixed2_small x Hpos Hsmall).
      pose proof (hundredths_nonneg x Hpos) as Hn.
      rewrite (parseFloat_fixed_digits _ Hn).
      destruct (reparse_same_hundredths x Hb Hpos Hsmall)
        as (d & -> & Hbd & Hd0 & Hd21 & _ & Hh).
      now rewrite (formatPrice_number d Hbd Hd0), (toFixed2_small d Hd0 Hd21), Hh.
    + intros _. split.
      * rewrite (toFixed2_small x Hpos Hsmall).
        apply fixed_digits_two_decimals, hundredths_nonneg, Hpos.
      * destruct (toFixed2_cents x Hpos Hsmall) as (a & b & -> & H).
        exists a, b. split; [reflexivity | exact H].
  - rewrite (toFixed2_large x Hlarge), (parseFloat_number_to_string x Hb Hpos).
    assert (Hbr : binary64 (Qred x)).
    { apply (binary64_comp x); [symmetry; apply Qred_correct | exact Hb]. }
    assert (Hpr : (0 <= Qred x)%Q) by (now rewrite Qred_correct).
    rewrite (formatPrice_number _ Hbr Hpr), toFixed2_Qred, (toFixed2_large x Hlarge).
    split; [reflexivity|]. intros Hlt. exfalso.
    apply (Qlt_irrefl x). eapply Qlt_le_trans; eassumption.
Qed.

Lemma binary64_12_5 : binary64 12.5.
Proof. exists 25, 1073. repeat split; try lia. Qed.

Lemma formatPrice_idempotent_witness :
  formatPrice (VNum (parseFloat (VStr (numeric_part (formatPrice (VNum (Fin 12.5)))))))
  = formatPrice (VNum (Fin 12.5)) /\
  two_decimal_price (formatPrice (VNum (Fin 12.5))) = true /\
  exists a b,
    formatPrice (VNum (Fin 12.5)) = lit "$" ++ a ++ lit "." ++ b /\ len b = 2 /\
    digits_value 10 digit_value (a ++ b) = 1250.
Proof.
  assert (Hpos : (0 <= 12.5)%Q) by (unfold Qle; simpl; lia).
  assert (Hlt : (12.5 < 10 ^ 21)%Q) by reflexivity.
  destruct (formatPrice_idempotent 12.5 binary64_12_5 Hpos) as [Hsame Hshape].
  destruct (Hshape Hlt) as (Htwo & a & b & Heq & _ & _ & _ & Hlb & Hlo & Hhi).
  split; [exact Hsame|]. split; [exact Htwo|].
  exists a, b. split; [exact Heq|]. split; [exact Hlb|].
  set (n := digits_value 10 digit_value (a ++ b)) in *. clearbody n.
  assert (H1 : (inject_Z 1249 < inject_Z n)%Q).
  { eapply Qlt_trans; [|exact Hlo]. reflexivity. }
  assert (H2 : (inject_Z n < inject_Z 1251)%Q).
  { eapply Qle_lt_trans; [exact Hhi|]. reflexivity. }
  rewrite <- Zlt_Qlt in H1, H2. lia.
Defined.

Lemma binary64_1e21 : binary64 (10 ^ 21).
Proof. exists (5 ^ 21), 1095. repeat split; try lia. Qed.

(** C9, as stated, fails at [x = 10^21]: [toFixed] hands over to the
    exponent notation from there on, and the formatted price is "$1e+21",
    which has no two decimal places. *)
Lemma formatPrice_1e21_has_no_decimals :
  binary64 (10 ^ 21) /\ (0 <= 10 ^ 21)%Q /\
  formatPrice (VNum (Fin (10 ^ 21))) = lit "$1e+21" /\
  two_decimal_price (formatPrice (VNum (Fin (10 ^ 21)))) = false.
Proof.
  split; [exact binary64_1e21|]. split; [unfold Qle; simpl; lia|].
  split; vm_compute; reflexivity.
Qed.

(** * Further properties of the script *)

(** ** Notifications *)

(** X1: a notification removes itself and nothing else: after
    [showNotification] the container exists and holds the earlier
    notifications followed by the new one, a 3000 ms timer is set for it,
    and running that timer's callback leaves exactly the earlier
    notifications. *)
Theorem showNotification_then_timer (message : value) (type : jsstring) (p : page) :
  fresh_ids p ->
  let p' := exec (showNotification message type) p in
  flash p' = Some (notifications p ++ [new_notification message type p]) /\
  timers p' = timers p ++ [(3000, RemoveNotification (fresh p))] /\
  requests p' = requests p /\
  fresh_ids p' /\
  notifications (remove_notification (fresh p) p') = notifications p.
Proof.
  intros Hfresh p'. subst p'. unfold exec. rewrite showNotification_run. cbn [snd].
  split; [reflexivity|]. split; [reflexivity|]. split; [reflexivity|]. split.
  - unfold fresh_ids, notifications in *. cbn.
    apply List.Forall_app. split.
    + eapply List.Forall_impl; [|exact Hfresh]. cbn. intros n Hn. lia.
    + constructor; [cbn; lia | constructor].
  - unfold remove_notification, notifications. cbn.
    rewrite List.filter_app. cbn. rewrite Nat.eqb_refl. cbn. rewrite app_nil_r.
    unfold fresh_ids, notifications in Hfresh.
    induction Hfresh as [|n l Hn _ IH]; [reflexivity|].
    cbn. replace (note_id n =? fresh p)%nat with false; [cbn; now rewrite IH|].
    symmetry. apply Nat.eqb_neq. lia.
Qed.

Lemma showNotification_then_timer_witness :
  let p' := exec (showNotification (VStr (lit "first")) (lit "error")) blank_page in
  let p'' := exec (showNotification (VStr (lit "second")) (lit "success")) p' in
  notifications (remove_notification (fresh p') p'') = notifications p'.
Proof.
  assert (H0 : fresh_ids blank_page) by constructor.
  pose proof (showNotification_then_timer (VStr (lit "first")) (lit "error") blank_page H0)
    as (_ & _ & _ & H1 & _).
  exact (proj2 (proj2 (proj2 (proj2
    (showNotification_then_timer (VStr (lit "second")) (lit "success") _ H1))))).
Defined.

(** ** addToCart *)

(** The quantity [addToCart] settles on. *)
Lemma addToCart_run productId quantity p :
  let id : jsstring := lit "qty-" ++ productId in
  let qtyInput := match inputs p !! id with Some _ => Some id | None => None end in
  let from_input := match inputs p !! id with Some v => parseInt v | None => Fin 1 end in
  let qty := match quantity with
             | Some q => if num_truthy q then q else from_input
             | None => from_input
             end in
  addToCart productId quantity p =
  if num_lt qty (Fin 1) then
    showNotification (VStr (lit "Please select a valid quantity")) (lit "error") p
  else (Ok tt, add_request (add_to_cart_request productId qty qtyInput) p).
Proof.
  cbv zeta.
  unfold addToCart, getElementById, get_value, fetch, modify, read, throw, exec,
    mbind, mret, action_bind, action_ret, add_to_cart_request.
  cbv beta.
  destruct (inputs p !! ((lit "qty-" ++ productId) : jsstring)) as [v|] eqn:Hv;
    cbv beta iota; rewrite ?Hv; cbv beta iota;
    destruct quantity as [q|]; try destruct (num_truthy q);
    cbv beta iota; rewrite ?Hv; cbv beta iota;
    match goal with |- context [num_lt ?x _] => destruct (num_lt x (Fin 1)) end;
    reflexivity.
Qed.

Lemma Qred_inject_Z n : Qred (inject_Z n) = inject_Z n.
Proof.
  apply Qcanon.Qred_identity. unfold inject_Z. simpl. apply Z.gcd_1_r.
Qed.

Lemma binary64_inject_Z n : Z.abs n < 2 ^ 53 -> binary64 (inject_Z n).
Proof.
  intros Hn. exists n, 1074. repeat split; try lia.
  unfold Qeq, inject_Z. simpl. fold scale. rewrite scale_value. ring.
Qed.

Lemma round_double_inject_Z n :
  0 <= n < 2 ^ 53 -> round_double (inject_Z n) = Fin (inject_Z n).
Proof.
  intros Hn. rewrite round_double_id, Qred_inject_Z; [reflexivity| |].
  - apply binary64_inject_Z. lia.
  - change 0%Q with (inject_Z 0). rewrite <- Zle_Qle. lia.
Qed.

Lemma head_digit_not_space_sign s :
  head_is_digit s = true -> strip_sign (trim_start s) = (false, s).
Proof.
  destruct s as [|c s]; [discriminate|]. cbn [head_is_digit]. intros Hc.
  destruct (digit_not_special c Hc) as (Hsp & Hm & Hp & _).
  unfold trim_start. cbn [drop_while]. rewrite Hsp. unfold strip_sign. now rewrite Hm, Hp.
Qed.

Lemma digit_not_x c : is_digit c = true -> ((c =? 120) || (c =? 88))%N = false.
Proof.
  unfold is_digit. intros H. apply andb_true_iff in H as [H1 H2].
  apply N.leb_le in H1, H2. apply orb_false_iff. split; apply N.eqb_neq; lia.
Qed.

Lemma hex_prefix_absent_intro c s :
  c <> 48%N \/ match s with x :: _ => ((x =? 120) || (x =? 88))%N = false | [] => True end ->
  hex_prefix_absent (c :: s).
Proof.
  unfold hex_prefix_absent. intros H.
  destruct (N.eq_dec c 48%N) as [-> | Hne].
  - destruct H as [H|H]; [congruence|].
    destruct s as [|x s]; [reflexivity|]. now rewrite H.
  - clear H. destruct c as [|p]; [reflexivity|].
    repeat (destruct p as [p|p|]; try reflexivity).
    congruence.
Qed.

(** [parseInt] reads the decimal digits it is given and stops at the
    first character that is not a digit. *)
Lemma parseInt_decimal n rest :
  1 <= n < 2 ^ 53 -> head_is_digit rest = false ->
  parseInt (decimal n ++ rest) = Fin (inject_Z n).
Proof.
  intros Hn Hrest.
  pose proof (decimal_digits n ltac:(lia)) as Hd.
  pose proof (decimal_value n ltac:(lia)) as Hv.
  pose proof (decimal_nonempty n ltac:(lia)) as Hne.
  assert (Hstop : match rest with [] => True | c :: _ => is_digit c = false end).
  { destruct rest; [exact I | exact Hrest]. }
  unfold parseInt.
  set (ds := decimal n) in *. clearbody ds.
  destruct ds as [|c ds]; [congruence|].
  cbn [forallb] in Hd. apply andb_true_iff in Hd as [Hc Hds].
  rewrite (head_digit_not_space_sign ((c :: ds) ++ rest)) by exact Hc.
  assert (Hhex : hex_prefix_absent ((c :: ds) ++ rest)).
  { apply hex_prefix_absent_intro. destruct ds as [|x ds].
    - left. intros E. rewrite E in Hv. vm_compute in Hv. lia.
    - right. cbn [forallb] in Hds. apply andb_true_iff in Hds as [Hx _].
      cbn [app]. now apply digit_not_x. }
  unfold hex_prefix_absent in Hhex.
  rewrite Hhex.
  rewrite (take_while_app is_digit (c :: ds) rest)
    by (try exact Hstop; cbn [forallb]; now rewrite Hc, Hds).
  rewrite Hv. apply round_double_inject_Z. lia.
Qed.

Lemma parseInt_no_digits s :
  head_is_digit (snd (strip_sign (trim_start s))) = false -> parseInt s = NaN.
Proof.
  unfold parseInt. destruct (strip_sign (trim_start s)) as [negative t]. cbn [snd].
  intros Ht. destruct t as [|c t]; [reflexivity|]. cbn [head_is_digit] in Ht.
  assert (Hc : c <> 48%N) by (intros ->; discriminate).
  pose proof (hex_prefix_absent_intro c t (or_introl Hc)) as Hhex.
  unfold hex_prefix_absent in Hhex. cbv beta iota.
  match goal with
  | |- context [let (hex, s0) := ?m in _] =>
      replace m with (false, c :: t) by (symmetry; exact Hhex)
  end.
  cbn [take_while]. now rewrite Ht.
Qed.

Lemma num_lt_Fin_1 q : num_lt (Fin q) (Fin 1) = true <-> (q < 1)%Q.
Proof.
  unfold num_lt, Qltb. rewrite negb_true_iff. split.
  - intros H. destruct (Qlt_le_dec q 1) as [|Hle]; [assumption|].
    apply Qle_bool_iff in Hle. congruence.
  - intros H. destruct (Qle_bool 1 q) eqn:E; [|reflexivity].
    apply Qle_bool_iff in E. exfalso. apply (Qlt_irrefl q). eapply Qlt_le_trans; eassumption.
Qed.

Lemma num_truthy_Fin q : num_truthy (Fin q) = true <-> ~ (q == 0)%Q.
Proof.
  unfold num_truthy. rewrite negb_true_iff. split.
  - intros H E. apply Qeq_bool_iff in E. congruence.
  - intros H. destruct (Qeq_bool q 0) eqn:E; [|reflexivity].
    apply Qeq_bool_iff in E. contradiction.
Qed.

(** X2: a quantity typed in the product's field as a decimal integer
    [n] from 1 up (below 2^53), possibly followed by text that does not
    start with a digit ("3", "3 kg", "2.9"), is the quantity posted:
    [addToCart(productId)] sends {product_id, quantity: n} and shows
    nothing. *)
Theorem addToCart_posts_typed_quantity productId (n : Z) (rest : jsstring) (p : page) :
  1 <= n < 2 ^ 53 ->
  head_is_digit rest = false ->
  field_value (lit "qty-" ++ productId) p = Some (decimal n ++ rest) ->
  let p' := exec (addToCart productId None) p in
  requests p' = requests p ++
    [add_to_cart_request productId (Fin (inject_Z n)) (Some (lit "qty-" ++ productId))] /\
  flash p' = flash p.
Proof.
  intros Hn Hrest Hfield p'. subst p'. unfold exec, field_value in *.
  rewrite addToCart_run. cbv zeta. rewrite Hfield, (parseInt_decimal n rest Hn Hrest).
  assert (Hlt : num_lt (Fin (inject_Z n)) (Fin 1) = false).
  { destruct (num_lt (Fin (inject_Z n)) (Fin 1)) eqn:E; [|reflexivity].
    apply num_lt_Fin_1 in E. change 1%Q with (inject_Z 1) in E.
    rewrite <- Zlt_Qlt in E. lia. }
  rewrite Hlt. split; reflexivity.
Qed.

Lemma addToCart_posts_typed_quantity_witness :
  let p := set_inputs (insert (lit "qty-P7") (lit "12 boxes")) blank_page in
  requests (exec (addToCart (lit "P7") None) p) =
    [add_to_cart_request (lit "P7") (Fin 12) (Some (lit "qty-P7"))].
Proof.
  assert (Hn : 1 <= 12 < 2 ^ 53) by lia.
  assert (Hrest : head_is_digit (lit " boxes") = false) by reflexivity.
  assert (Hfield : field_value (lit "qty-" ++ lit "P7")
                     (set_inputs (insert (lit "qty-P7") (lit "12 boxes")) blank_page)
                   = Some (decimal 12 ++ lit " boxes")) by (vm_compute; reflexivity).
  exact (proj1 (addToCart_posts_typed_quantity (lit "P7") 12 (lit " boxes") _ Hn Hrest Hfield)).
Defined.

(** X3: the guard [qty < 1] lets a field with no number in it through.
    When the field's value, after white space and a sign, does not start
    with a digit (an empty field, "abc"), [parseInt] gives NaN, NaN is not
    below 1, and [addToCart(productId)] sends its request without any
    error notification.  The object it serialises holds the quantity NaN,
    which JSON.stringify writes as null: that is the quantity posted. *)
Theorem addToCart_posts_NaN_for_text productId (v : jsstring) (p : page) :
  field_value (lit "qty-" ++ productId) p = Some v ->
  head_is_digit (snd (strip_sign (trim_start v))) = false ->
  let p' := exec (addToCart productId None) p in
  let r := add_to_cart_request productId NaN (Some (lit "qty-" ++ productId)) in
  requests p' = requests p ++ [r] /\
  payload r = Some (lit "{" ++ QuoteJSONString (lit "product_id") ++ lit ":"
                    ++ QuoteJSONString productId ++ lit ","
                    ++ QuoteJSONString (lit "quantity") ++ lit ":null}") /\
  flash p' = flash p.
Proof.
  intros Hfield Hv p' r. subst p' r. unfold exec, field_value in *.
  rewrite addToCart_run. cbv zeta. rewrite Hfield, (parseInt_no_digits v Hv).
  split; [reflexivity|]. split; [|reflexivity].
  unfold payload, add_to_cart_request. cbn [body JSON_stringify flat_map app json_number].
  cbn [join_comma]. now rewrite <- !app_assoc.
Qed.

Lemma addToCart_posts_NaN_witness :
  let p := set_inputs (insert (lit "qty-P7") (lit "abc")) blank_page in
  exists r,
    requests (exec (addToCart (lit "P7") None) p) = [r] /\
    payload r = Some (lit "{" ++ [quotation_mark] ++ lit "product_id" ++ [quotation_mark]
                      ++ lit ":" ++ [quotation_mark] ++ lit "P7" ++ [quotation_mark]
                      ++ lit "," ++ [quotation_mark] ++ lit "quantity" ++ [quotation_mark]
                      ++ lit ":null}").
Proof.
  assert (Hfield : field_value (lit "qty-" ++ lit "P7")
                     (set_inputs (insert (lit "qty-P7") (lit "abc")) blank_page) = Some (lit "abc"))
    by (vm_compute; reflexivity).
  destruct (addToCart_posts_NaN_for_text (lit "P7") (lit "abc") _ Hfield eq_refl)
    as (Hreq & Hpay & _).
  eexists. split; [exact Hreq|]. rewrite Hpay. vm_compute. reflexivity.
Defined.

(** X4: with no quantity argument, a field whose value parses to a number
    below 1 ("0", "-5") is rejected: no request, and the error "Please
    select a valid quantity". *)
Theorem addToCart_rejects_field_below_one productId (v : jsstring) (q : Q) (p : page) :
  field_value (lit "qty-" ++ productId) p = Some v ->
  parseInt v = Fin q ->
  (q < 1)%Q ->
  let p' := exec (addToCart productId None) p in
  requests p' = requests p /\
  notifications p' = notifications p ++
    [new_notification (VStr (lit "Please select a valid quantity")) (lit "error") p].
Proof.
  intros Hfield Hparse Hq p'. subst p'. unfold exec, field_value in *.
  rewrite addToCart_run. cbv zeta. rewrite Hfield, Hparse.
  apply num_lt_Fin_1 in Hq. rewrite Hq, showNotification_run. split; reflexivity.
Qed.

Lemma addToCart_rejects_field_witness :
  let p := set_inputs (insert (lit "qty-P7") (lit "-5")) blank_page in
  requests (exec (addToCart (lit "P7") None) p) = [] /\
  notifications (exec (addToCart (lit "P7") None) p) =
    [new_notification (VStr (lit "Please select a valid quantity")) (lit "error") p].
Proof.
  assert (Hfield : field_value (lit "qty-" ++ lit "P7")
                     (set_inputs (insert (lit "qty-P7") (lit "-5")) blank_page) = Some (lit "-5"))
    by (vm_compute; reflexivity).
  assert (Hparse : parseInt (lit "-5") = Fin (-5)) by (vm_compute; reflexivity).
  assert (Hq : (-5 < 1)%Q) by reflexivity.
  exact (addToCart_rejects_field_below_one (lit "P7") (lit "-5") (-5) _ Hfield Hparse Hq).
Defined.

(** X5: a quantity argument of 1 or more overrides the field: whatever
    the page holds, [addToCart(productId, q)] posts exactly [q] (also a
    fractional one) and shows nothing. *)
Theorem addToCart_argument_overrides_field productId (q : Q) (p : page) :
  (1 <= q)%Q ->
  let p' := exec (addToCart productId (Some (Fin q))) p in
  exists r,
    requests p' = requests p ++ [r] /\
    url r = lit "/add_to_cart" /\
    body r = Some (VObj [(lit "product_id", VStr productId); (lit "quantity", VNum (Fin q))]) /\
    flash p' = flash p.
Proof.
  intros Hq p'. subst p'. unfold exec. rewrite addToCart_run. cbv zeta.
  assert (Ht : num_truthy (Fin q) = true).
  { apply num_truthy_Fin. intros E. rewrite E in Hq. apply Hq. reflexivity. }
  assert (Hlt : num_lt (Fin q) (Fin 1) = false).
  { destruct (num_lt (Fin q) (Fin 1)) eqn:E; [|reflexivity].
    apply num_lt_Fin_1 in E. exfalso. apply (Qlt_irrefl q). eapply Qlt_le_trans; eassumption. }
  rewrite Ht, Hlt. eexists. repeat split.
Qed.

Lemma addToCart_argument_overrides_witness :
  let p := set_inputs (insert (lit "qty-P7") (lit "40")) blank_page in
  exists r,
    requests (exec (addToCart (lit "P7") (Some (Fin 2))) p) = [r] /\
    body r = Some (VObj [(lit "product_id", VStr (lit "P7")); (lit "quantity", VNum (Fin 2))]).
Proof.
  assert (Hq : (1 <= 2)%Q) by discriminate.
  destruct (addToCart_argument_overrides_field (lit "P7") 2
              (set_inputs (insert (lit "qty-P7") (lit "40")) blank_page) Hq)
    as (r & Hr & _ & Hb & _).
  exists r. split; [exact Hr | exact Hb].
Defined.

(** X6: when the reply to an add is anything but a success (the fetch
    fails, the body is not JSON, the data is null, or its success flag is
    falsy), the chain shows "Error adding product to cart" and leaves the
    quantity field, the requests and the badge alone: the cart count is
    not asked for again. *)
Theorem addToCart_failure_chain (qtyInput : option jsstring) (r : reply) (p : page) :
  reply_succeeds r = false ->
  let p' := exec (settle (HAddToCart qtyInput) r) p in
  notifications p' = notifications p ++
    [new_notification (VStr (lit "Error adding product to cart")) (lit "error") p] /\
  requests p' = requests p /\
  inputs p' = inputs p /\
  cartCount p' = cartCount p.
Proof.
  intros Hr p'. subst p'. unfold reply_succeeds in Hr.
  destruct r as [| |data]; run; try (rewrite showNotification_run; repeat split).
  destruct (get_prop data (lit "success")) as [success|e]; cbn.
  - rewrite Hr, showNotification_run. repeat split.
  - rewrite showNotification_run. repeat split.
Qed.

Lemma addToCart_failure_chain_witness :
  let p := set_inputs (insert (lit "qty-P7") (lit "4")) blank_page in
  let p' := exec (settle (HAddToCart (Some (lit "qty-P7")))
                    (Json (VObj [(lit "success", VBool false)]))) p in
  requests p' = [] /\ inputs p' = inputs p.
Proof.
  destruct (addToCart_failure_chain (Some (lit "qty-P7"))
              (Json (VObj [(lit "success", VBool false)]))
              (set_inputs (insert (lit "qty-P7") (lit "4")) blank_page) eq_refl)
    as (_ & Hr & Hi & _).
  split; [exact Hr | exact Hi].
Defined.

(** ** updateQuantity *)

(** X7: a new quantity that is not below 1 goes to the update endpoint
    in one POST, with no confirm dialog and no notification.  In the body
    a finite quantity is written as the number it is; NaN and Infinity
    are not below 1 either, so they are sent too, and JSON.stringify
    writes them as null. *)
Theorem updateQuantity_sends_update productId (newQuantity : number) (p : page) :
  num_lt newQuantity (Fin 1) = false ->
  let p' := exec (updateQuantity productId newQuantity) p in
  (exists r,
      requests p' = requests p ++ [r] /\
      url r = lit "/update_cart" /\ method r = POST /\ chain r = HUpdateQuantity /\
      payload r =
        Some (lit "{" ++ QuoteJSONString (lit "product_id") ++ lit ":"
              ++ QuoteJSONString productId ++ lit ","
              ++ QuoteJSONString (lit "quantity") ++ lit ":"
              ++ match newQuantity with
                 | Fin _ => number_to_string newQuantity
                 | NaN | Inf _ => lit "null"
                 end
              ++ lit "}")) /\
  dialogs p' = dialogs p /\
  flash p' = flash p /\
  num_lt NaN (Fin 1) = false /\
  num_lt (Inf false) (Fin 1) = false.
Proof.
  intros H p'. subst p'. unfold exec, updateQuantity. rewrite H.
  split; [|repeat split].
  eexists. split; [reflexivity|]. repeat split.
  unfold payload. cbn [body snd fetch modify add_request requests].
  cbn [JSON_stringify flat_map app]. cbn [join_comma].
  unfold json_number. now rewrite <- !app_assoc.
Qed.

Lemma updateQuantity_sends_update_witness :
  let p' := exec (updateQuantity (lit "P7") NaN) blank_page in
  dialogs p' = [] /\
  exists r,
    requests p' = [r] /\
    payload r = Some (lit "{" ++ [quotation_mark] ++ lit "product_id" ++ [quotation_mark]
                      ++ lit ":" ++ [quotation_mark] ++ lit "P7" ++ [quotation_mark]
                      ++ lit "," ++ [quotation_mark] ++ lit "quantity" ++ [quotation_mark]
                      ++ lit ":null}").
Proof.
  destruct (updateQuantity_sends_update (lit "P7") NaN blank_page eq_refl)
    as ((r & Hr & _ & _ & _ & Hpay) & Hd & _).
  split; [exact Hd|].
  exists r. split; [exact Hr|]. rewrite Hpay. vm_compute. reflexivity.
Defined.

(** X8: the update chain reloads the page on a success and does nothing
    else; on any other reply it shows "Error updating cart" and does not
    reload. *)
Theorem updateQuantity_chain (r : reply) (p : page) :
  let p' := exec (settle HUpdateQuantity r) p in
  (reply_succeeds r = true -> p' = add_reload p) /\
  (reply_succeeds r = false ->
   reloads p' = reloads p /\
   requests p' = requests p /\
   notifications p' = notifications p ++
     [new_notification (VStr (lit "Error updating cart")) (lit "error") p]).
Proof.
  cbv zeta. unfold reply_succeeds.
  destruct r as [| |data]; run.
  1, 2: split; [discriminate | intros _; rewrite showNotification_run; repeat split].
  destruct (get_prop data (lit "success")) as [success|e]; cbn.
  - destruct (truthy success); cbn; split; try discriminate; try reflexivity.
    intros _. rewrite showNotification_run. repeat split.
  - split; [discriminate|]. intros _. rewrite showNotification_run. repeat split.
Qed.

Lemma updateQuantity_chain_witness :
  exec (settle HUpdateQuantity (Json (VObj [(lit "success", VBool true)]))) blank_page
  = add_reload blank_page /\
  reloads (exec (settle HUpdateQuantity NotJson) blank_page) = 0%nat.
Proof.
  split.
  - exact (proj1 (updateQuantity_chain
                    (Json (VObj [(lit "success", VBool true)])) blank_page) eq_refl).
  - exact (proj1 (proj2 (updateQuantity_chain NotJson blank_page) eq_refl)).
Defined.

(** ** removeFromCart *)

Lemma remove_first_spec productId l :
  match remove_first productId l with
  | Some l' =>
      exists before after,
        l = before ++ productId :: after /\ ~ In productId before /\ l' = before ++ after
  | None => ~ In productId l
  end.
Proof.
  induction l as [|x l IH]; cbn; [tauto|].
  unfold jsstring_eqb. destruct (bool_decide (x = productId)) eqn:E.
  - apply bool_decide_eq_true in E as ->. exists [], l. auto.
  - apply bool_decide_eq_false in E.
    destruct (remove_first productId l) as [l'|].
    + destruct IH as (before & after & -> & Hnot & ->).
      exists (x :: before), after. repeat split. intros [Hx|Hin]; auto.
    + intros [Hx|Hin]; auto.
Qed.

Lemma remove_cart_line_plain productId p :
  plain_id productId = true ->
  remove_cart_line productId p =
  match remove_first productId (cart_lines p) with
  | Some l' => (Ok tt, set_cart_lines l' p)
  | None => (Throw TypeError, p)
  end.
Proof.
  intros Hplain. unfold remove_cart_line. rewrite Hplain.
  unfold read, throw, modify, mbind, action_bind.
  destruct (remove_first productId (cart_lines p)); reflexivity.
Qed.

(** X9: on a success, for a plain product id (one that the selector
    takes as it is: no double quote, backslash, line break, NUL or
    surrogate in it), when the page has a cart line for the product, the
    remove chain takes out the first such line and no other, shows "Item
    removed from cart", asks for the cart count and reloads. *)
Theorem removeFromCart_success_chain productId (r : reply) (p : page) :
  plain_id productId = true ->
  reply_succeeds r = true ->
  In productId (cart_lines p) ->
  let p' := exec (settle (HRemoveFromCart productId) r) p in
  (exists before after,
      cart_lines p = before ++ productId :: after /\
      ~ In productId before /\
      cart_lines p' = before ++ after) /\
  notifications p' = notifications p ++
    [new_notification (VStr (lit "Item removed from cart")) (lit "success") p] /\
  requests p' = requests p ++ [cart_count_request] /\
  reloads p' = S (reloads p) /\
  console p' = console p.
Proof.
  intros Hplain Hr Hin p'. subst p'. unfold reply_succeeds in Hr.
  destruct r as [| |data]; try discriminate.
  pose proof (remove_first_spec productId (cart_lines p)) as Hspec.
  unfold exec, settle, on_data, lift, mbind, action_bind.
  destruct (get_prop data (lit "success")) as [success|e]; [|discriminate].
  rewrite Hr, (remove_cart_line_plain productId p Hplain).
  destruct (remove_first productId (cart_lines p)) as [l'|]; [|contradiction].
  rewrite showNotification_run. cbn. repeat split. exact Hspec.
Qed.

Lemma removeFromCart_success_chain_witness :
  let p := set_cart_lines [lit "P1"; lit "P7"; lit "P1"] blank_page in
  let p' := exec (settle (HRemoveFromCart (lit "P7"))
                    (Json (VObj [(lit "success", VBool true)]))) p in
  reloads p' = 1%nat /\ requests p' = [cart_count_request].
Proof.
  assert (Hin : In (lit "P7") (cart_lines (set_cart_lines [lit "P1"; lit "P7"; lit "P1"] blank_page)))
    by (right; left; reflexivity).
  destruct (removeFromCart_success_chain (lit "P7")
              (Json (VObj [(lit "success", VBool true)])) _ eq_refl eq_refl Hin)
    as (_ & _ & Hreq & Hrel & _).
  split; [exact Hrel | exact Hreq].
Defined.

(** X10: on a success for a plain product id that has no cart line on
    the page, looking the line up gives null: the chain logs a TypeError
    and shows "Error removing item", and neither reloads the page nor
    asks for the cart count, although the server has removed the item. *)
Theorem removeFromCart_success_without_line productId (r : reply) (p : page) :
  plain_id productId = true ->
  reply_succeeds r = true ->
  ~ In productId (cart_lines p) ->
  let p' := exec (settle (HRemoveFromCart productId) r) p in
  notifications p' = notifications p ++
    [new_notification (VStr (lit "Error removing item")) (lit "error") p] /\
  console p' = console p ++ [TypeError] /\
  reloads p' = reloads p /\
  requests p' = requests p /\
  cart_lines p' = cart_lines p.
Proof.
  intros Hplain Hr Hnot p'. subst p'. unfold reply_succeeds in Hr.
  destruct r as [| |data]; try discriminate.
  pose proof (remove_first_spec productId (cart_lines p)) as Hspec.
  unfold exec, settle, on_data, lift, mbind, action_bind.
  destruct (get_prop data (lit "success")) as [success|e]; [|discriminate].
  rewrite Hr, (remove_cart_line_plain productId p Hplain).
  destruct (remove_first productId (cart_lines p)) as [l'|].
  - exfalso. destruct Hspec as (before & after & Heq & _). apply Hnot.
    rewrite Heq. apply in_or_app. right. now left.
  - unfold on_error, console_error, modify, mbind, action_bind.
    rewrite showNotification_run. repeat split.
Qed.

Lemma removeFromCart_success_without_line_witness :
  let p' := exec (settle (HRemoveFromCart (lit "P7"))
                    (Json (VObj [(lit "success", VBool true)]))) blank_page in
  console p' = [TypeError] /\ reloads p' = 0%nat.
Proof.
  assert (Hnot : ~ In (lit "P7") (cart_lines blank_page)) by (intros []).
  destruct (removeFromCart_success_without_line (lit "P7")
              (Json (VObj [(lit "success", VBool true)])) blank_page eq_refl eq_refl Hnot)
    as (_ & Hc & Hr & _).
  split; [exact Hc | exact Hr].
Defined.

(** ** placeOrder *)

(** X11: the order chain on an object reply.  With a truthy success flag
    it shows "Order placed successfully!" and sets a 2000 ms timer that
    goes to /orders, without reloading.  Otherwise it shows the reply's
    [message] when that is truthy and "Error placing order" when the
    message is missing, empty or otherwise falsy. *)
Theorem placeOrder_chain_on_object (fields : list (jsstring * value)) (p : page) :
  let p' := exec (settle HPlaceOrder (Json (VObj fields))) p in
  let success := lookup_field (lit "success") fields in
  let message := lookup_field (lit "message") fields in
  (truthy success = true ->
   notifications p' = notifications p ++
     [new_notification (VStr (lit "Order placed successfully!")) (lit "success") p] /\
   timers p' = timers p ++ [(3000, RemoveNotification (fresh p));
                            (2000, Navigate (lit "/orders"))] /\
   reloads p' = reloads p) /\
  (truthy success = false ->
   notifications p' = notifications p ++
     [new_notification (if truthy message then message else VStr (lit "Error placing order"))
        (lit "error") p] /\
   timers p' = timers p ++ [(3000, RemoveNotification (fresh p))] /\
   console p' = console p).
Proof.
  cbv zeta. run. destruct (truthy (lookup_field (lit "success") fields)); cbn.
  - rewrite showNotification_run. cbn. split; [|discriminate].
    intros _. rewrite <- app_assoc. repeat split.
  - unfold or_else. rewrite showNotification_run. split; [discriminate|].
    intros _. repeat split.
Qed.

Lemma placeOrder_chain_on_object_witness :
  notifications (exec (settle HPlaceOrder
                         (Json (VObj [(lit "success", VBool false);
                                      (lit "message", VStr (lit "Cart is empty"))])))
                   blank_page)
  = [new_notification (VStr (lit "Cart is empty")) (lit "error") blank_page] /\
  notifications (exec (settle HPlaceOrder
                         (Json (VObj [(lit "success", VBool false);
                                      (lit "message", VStr [])])))
                   blank_page)
  = [new_notification (VStr (lit "Error placing order")) (lit "error") blank_page].
Proof.
  split.
  - exact (proj1 (proj2 (placeOrder_chain_on_object
                           [(lit "success", VBool false);
                            (lit "message", VStr (lit "Cart is empty"))] blank_page) eq_refl)).
  - exact (proj1 (proj2 (placeOrder_chain_on_object
                           [(lit "success", VBool false);
                            (lit "message", VStr [])] blank_page) eq_refl)).
Defined.

Lemma placeOrder_without_fields_aux (p : page) :
  inputs p !! lit "deliveryAddress" = None \/ inputs p !! lit "phoneNumber" = None ->
  exec placeOrder p = p.
Proof.
  intros H. run.
  destruct (inputs p !! lit "deliveryAddress") as [a|] eqn:Ha; cbn; [|reflexivity].
  destruct H as [H|H]; [discriminate|]. now rewrite H.
Qed.

(** X12: when the address field or, with the address field present, the
    phone field is not on the page, [placeOrder] throws a TypeError before
    it validates anything: nothing is shown and nothing is sent. *)
Theorem placeOrder_without_fields (p : page) :
  field_value (lit "deliveryAddress") p = None \/
  field_value (lit "phoneNumber") p = None ->
  placeOrder p = (Throw TypeError, p).
Proof.
  unfold field_value. intros H. run.
  destruct (inputs p !! lit "deliveryAddress") as [a|] eqn:Ha; cbn; [|reflexivity].
  destruct H as [H|H]; [discriminate|]. now rewrite H.
Qed.

Lemma placeOrder_without_fields_witness :
  placeOrder blank_page = (Throw TypeError, blank_page).
Proof.
  apply placeOrder_without_fields. left. reflexivity.
Defined.

Lemma drop_while_all (pr : char -> bool) s :
  drop_while pr s = [] <-> forallb pr s = true.
Proof.
  induction s as [|c s IH]; cbn; [tauto|].
  destruct (pr c); cbn; [exact IH|]. split; discriminate.
Qed.

Lemma trim_empty_iff s : trim s = [] <-> forallb is_space s = true.
Proof.
  unfold trim, trim_end, trim_start. split.
  - intros H. apply (f_equal (@rev char)) in H. rewrite rev_involutive in H. cbn in H.
    apply drop_while_all in H. rewrite forallb_forall in H.
    assert (Hdw : drop_while is_space s = []).
    { destruct (drop_while is_space s) as [|c t] eqn:E; [reflexivity|]. exfalso.
      assert (Hc : is_space c = true) by (apply H, in_rev; rewrite rev_involutive; now left).
      clear H. induction s as [|x s IH]; [discriminate|].
      cbn in E. destruct (is_space x) eqn:Ex; [now apply IH|].
      injection E as -> _. congruence. }
    now apply drop_while_all.
  - intros H. apply drop_while_all in H. now rewrite H.
Qed.

(** X13: an address made of white space only (spaces, tabs, line
    breaks) is treated as an empty one, whatever the phone field holds:
    no request, and the error "Please enter delivery address". *)
Theorem placeOrder_rejects_blank_address (p : page) (a ph : jsstring) :
  field_value (lit "deliveryAddress") p = Some a ->
  field_value (lit "phoneNumber") p = Some ph ->
  forallb is_space a = true ->
  let p' := exec placeOrder p in
  requests p' = requests p /\
  notifications p' = notifications p ++
    [new_notification (VStr (lit "Please enter delivery address")) (lit "error") p].
Proof.
  intros Ha Hp Hblank p'. subst p'. unfold exec, field_value in *.
  rewrite (placeOrder_run _ _ _ Ha Hp).
  apply trim_empty_iff in Hblank. rewrite Hblank, showNotification_run.
  split; reflexivity.
Qed.

Lemma placeOrder_rejects_blank_address_witness :
  let p := order_form [9%N; 32%N; 10%N; 160%N] (lit "5551234567") in
  requests (exec placeOrder p) = [] /\
  notifications (exec placeOrder p) =
    [new_notification (VStr (lit "Please enter delivery address")) (lit "error") p].
Proof.
  exact (placeOrder_rejects_blank_address
           (order_form [9%N; 32%N; 10%N; 160%N] (lit "5551234567"))
           [9%N; 32%N; 10%N; 160%N] (lit "5551234567") eq_refl eq_refl eq_refl).
Defined.

Lemma drop_while_head (pr : char -> bool) s :
  match drop_while pr s with c :: _ => pr c = false | [] => True end.
Proof.
  induction s as [|c s IH]; cbn; [exact I|].
  destruct (pr c) eqn:E; [exact IH | exact E].
Qed.

Lemma drop_while_keep_last (pr : char -> bool) s c :
  pr c = false -> drop_while pr (s ++ [c]) = drop_while pr s ++ [c].
Proof.
  intros Hc. induction s as [|x s IH]; cbn; [now rewrite Hc|].
  destruct (pr x); [exact IH | reflexivity].
Qed.

Lemma trim_edges s :
  starts_with_space (trim s) = false /\ ends_with_space (trim s) = false.
Proof.
  unfold trim, trim_end, trim_start, ends_with_space.
  rewrite rev_involutive.
  pose proof (drop_while_head is_space s) as Hhead.
  set (t := drop_while is_space s) in *. clearbody t.
  pose proof (drop_while_head is_space (rev t)) as Hlast.
  split.
  - destruct t as [|c t]; [reflexivity|].
    cbn [rev]. rewrite (drop_while_keep_last _ _ _ Hhead), rev_app_distr. cbn.
    exact Hhead.
  - unfold starts_with_space. destruct (drop_while is_space (rev t)); [reflexivity|exact Hlast].
Qed.

(** X14: what [placeOrder] sends is always clean.  Whenever it adds a
    request, the body is {address, phone} where the address is not empty,
    neither value starts or ends with white space, and the phone has
    exactly ten digits. *)
Theorem placeOrder_sends_clean_values (p : page) (r : request) :
  requests (exec placeOrder p) = requests p ++ [r] ->
  exists address phone,
    url r = lit "/place_order" /\
    body r = Some (VObj [(lit "address", VStr address); (lit "phone", VStr phone)]) /\
    address <> [] /\
    starts_with_space address = false /\ ends_with_space address = false /\
    starts_with_space phone = false /\ ends_with_space phone = false /\
    length (strip_non_digits phone) = 10%nat.
Proof.
  intros Hreq.
  assert (Hself : forall l : list request, l = l ++ [r] -> False).
  { intros l Hl. apply (f_equal (@length request)) in Hl.
    rewrite length_app in Hl. cbn in Hl. lia. }
  destruct (inputs p !! lit "deliveryAddress") as [a|] eqn:Ha.
  2: { rewrite (placeOrder_without_fields_aux p) in Hreq by (left; exact Ha).
       cbn in Hreq. now apply Hself in Hreq. }
  destruct (inputs p !! lit "phoneNumber") as [ph|] eqn:Hp.
  2: { rewrite (placeOrder_without_fields_aux p) in Hreq by (right; exact Hp).
       cbn in Hreq. now apply Hself in Hreq. }
  unfold exec in Hreq. rewrite (placeOrder_run _ _ _ Ha Hp) in Hreq.
  destruct (trim a) as [|c t] eqn:Ht.
  { rewrite showNotification_run in Hreq. cbn in Hreq. now apply Hself in Hreq. }
  destruct (validatePhone (trim ph)) eqn:Hv.
  2: { rewrite showNotification_run in Hreq. cbn in Hreq. now apply Hself in Hreq. }
  cbn in Hreq. apply app_inv_head in Hreq. injection Hreq as <-.
  exists (c :: t), (trim ph). rewrite <- Ht.
  destruct (trim_edges a) as [Ha1 Ha2]. destruct (trim_edges ph) as [Hp1 Hp2].
  repeat split; try assumption.
  - rewrite Ht. discriminate.
  - now apply validatePhone_length.
Qed.

Lemma placeOrder_sends_clean_values_witness :
  exists address phone,
    body (place_order_request (lit "1 Main St") (lit "555 123 4567"))
    = Some (VObj [(lit "address", VStr address); (lit "phone", VStr phone)]) /\
    address <> [] /\ length (strip_non_digits phone) = 10%nat.
Proof.
  destruct (placeOrder_sends_clean_values
              (order_form (lit "  1 Main St ") (lit " 555 123 4567"))
              (place_order_request (lit "1 Main St") (lit "555 123 4567")) eq_refl)
    as (address & phone & _ & Hb & Hne & _ & _ & _ & _ & Hd).
  exists address, phone. auto.
Defined.

(** ** The cart count badge *)

(** X15: page load asks for the cart count, and the reply sets the badge:
    to the reply's [count] when that is truthy, to 0 when the count is 0,
    missing or otherwise falsy.  When the page has no badge, or the data
    is null, the chain only logs a TypeError. *)
Theorem updateCartCount_chain (data : value) (p : page) :
  requests (exec on_DOMContentLoaded p) = requests p ++ [cart_count_request] /\
  let p' := exec (settle HCartCount (Json data)) p in
  (forall old count,
      cartCount p = Some old -> get_prop data (lit "count") = Ok count ->
      p' = set_cartCount (Some (if truthy count then count else VNum (Fin 0))) p) /\
  (cartCount p = None \/ get_prop data (lit "count") = Throw TypeError ->
   p' = add_console TypeError p).
Proof.
  split; [reflexivity|]. cbv zeta. run. split.
  - intros old count Hold Hcount. rewrite Hold, Hcount. reflexivity.
  - intros [Hnone | Hthrow].
    + rewrite Hnone. destruct (get_prop data (lit "count")) as [c|e] eqn:E; cbn.
      * reflexivity.
      * destruct data; cbn in E; try discriminate; injection E as <-; reflexivity.
    + rewrite Hthrow. destruct (cartCount p); reflexivity.
Qed.

Lemma updateCartCount_chain_witness :
  let p := set_cartCount (Some (VStr (lit "2"))) blank_page in
  exec (settle HCartCount (Json (VObj [(lit "count", VNum (Fin 5))]))) p
  = set_cartCount (Some (VNum (Fin 5))) p /\
  exec (settle HCartCount (Json (VObj []))) p = set_cartCount (Some (VNum (Fin 0))) p /\
  exec (settle HCartCount (Json VNull)) p = add_console TypeError p.
Proof.
  split; [|split].
  - exact (proj1 (proj2 (updateCartCount_chain (VObj [(lit "count", VNum (Fin 5))])
                           (set_cartCount (Some (VStr (lit "2"))) blank_page)))
             (VStr (lit "2")) (VNum (Fin 5)) eq_refl eq_refl).
  - exact (proj1 (proj2 (updateCartCount_chain (VObj [])
                           (set_cartCount (Some (VStr (lit "2"))) blank_page)))
             (VStr (lit "2")) VUndef eq_refl eq_refl).
  - exact (proj2 (proj2 (updateCartCount_chain VNull
                           (set_cartCount (Some (VStr (lit "2"))) blank_page)))
             (or_intror eq_refl)).
Defined.

(** ** All chains *)


(** X17: the user cannot tell a failed transport from a refusal by the
    server.  For the four cart and order chains, a fetch that fails, a
    body that is not JSON and a reply {success: false} without a message
    leave the same notifications on the page. *)
Theorem failure_kinds_look_the_same (h : handler) (p : page) :
  h <> HCartCount ->
  let refused := Json (VObj [(lit "success", VBool false)]) in
  flash (exec (settle h NetworkFailure) p) = flash (exec (settle h refused) p) /\
  flash (exec (settle h NotJson) p) = flash (exec (settle h refused) p) /\
  flash (exec (settle h refused) p) <> flash p.
Proof.
  intros Hh. cbv zeta.
  assert (Hgrow : forall n : notification,
             Some (notifications p ++ [n]) <> flash p).
  { intros n E. unfold notifications in E.
    destruct (flash p) as [l|]; [|discriminate]. injection E as E.
    apply (f_equal (@length notification)) in E. rewrite length_app in E. cbn in E. lia. }
  assert (Hs : get_prop (VObj [(lit "success", VBool false)]) (lit "success")
               = Ok (VBool false)) by reflexivity.
  assert (Hm : get_prop (VObj [(lit "success", VBool false)]) (lit "message")
               = Ok VUndef) by reflexivity.
  destruct h; try congruence;
    unfold exec, settle, on_data, on_error, console_error, lift, modify, mbind,
      action_bind;
    rewrite ?Hs, ?Hm; cbn; rewrite !showNotification_run; cbn;
    repeat split; apply Hgrow.
Qed.

Lemma failure_kinds_look_the_same_witness :
  flash (exec (settle HPlaceOrder NetworkFailure) blank_page)
  = flash (exec (settle HPlaceOrder (Json (VObj [(lit "success", VBool false)]))) blank_page).
Proof.
  assert (Hh : HPlaceOrder <> HCartCount) by discriminate.
  exact (proj1 (failure_kinds_look_the_same HPlaceOrder blank_page Hh)).
Defined.

(** ** Before any reply *)

(** X18: before a reply arrives, each of the four operations does at
    most one thing, sending one request or showing one error notification,
    and touches nothing else: the form fields, the badge, the cart lines,
    the console and the reload count are as they were. *)
Theorem operations_do_one_thing (p : page) productId (quantity : option number)
    (newQuantity : number) :
  forall op,
    In op [addToCart productId quantity; updateQuantity productId newQuantity;
           removeFromCart productId; placeOrder] ->
    let p' := exec op p in
    one_step p p' /\
    inputs p' = inputs p /\ cartCount p' = cartCount p /\ cart_lines p' = cart_lines p /\
    console p' = console p /\ reloads p' = reloads p.
Proof.
  assert (Hremove : forall q, let p' := exec (removeFromCart productId) q in
            one_step q p' /\
            inputs p' = inputs q /\ cartCount p' = cartCount q /\
            cart_lines p' = cart_lines q /\
            console p' = console q /\ reloads p' = reloads q).
  { intros q. cbv zeta. unfold exec. destruct (confirm_reply q) eqn:Hc.
    - rewrite (removeFromCart_confirmed _ _ Hc). cbn. split; [|repeat split].
      right. left. eexists. split; reflexivity.
    - rewrite (removeFromCart_declined _ _ Hc). cbn. split; [|repeat split].
      left. split; reflexivity. }
  intros op Hop. cbv zeta.
  destruct Hop as [<-|[<-|[<-|[<-|[]]]]].
  - unfold exec. rewrite addToCart_run. cbv zeta.
    match goal with |- context [num_lt ?x _] => destruct (num_lt x (Fin 1)) end.
    + rewrite showNotification_run. cbn. split; [|repeat split].
      right. right. eexists. repeat split.
    + cbn. split; [|repeat split]. right. left. eexists. split; reflexivity.
  - unfold exec at 1 2 3 4 5 6, updateQuantity.
    destruct (num_lt newQuantity (Fin 1)); [apply Hremove|].
    cbn. split; [|repeat split]. right. left. eexists. split; reflexivity.
  - apply Hremove.
  - destruct (inputs p !! lit "deliveryAddress") as [a|] eqn:Ha.
    2: { rewrite (placeOrder_without_fields_aux p) by (left; exact Ha).
         split; [|repeat split]. left. split; reflexivity. }
    destruct (inputs p !! lit "phoneNumber") as [ph|] eqn:Hp.
    2: { rewrite (placeOrder_without_fields_aux p) by (right; exact Hp).
         split; [|repeat split]. left. split; reflexivity. }
    unfold exec. rewrite (placeOrder_run _ _ _ Ha Hp).
    destruct (trim a).
    { rewrite showNotification_run. cbn. split; [|repeat split].
      right. right. eexists. repeat split. }
    destruct (validatePhone (trim ph)).
    + cbn. split; [|repeat split]. right. left. eexists. split; reflexivity.
    + rewrite showNotification_run. cbn. split; [|repeat split].
      right. right. eexists. repeat split.
Qed.

Lemma operations_do_one_thing_witness :
  let p := order_form (lit "1 Main St") (lit "12345") in
  one_step p (exec placeOrder p) /\ inputs (exec placeOrder p) = inputs p.
Proof.
  destruct (operations_do_one_thing (order_form (lit "1 Main St") (lit "12345"))
              (lit "P1") None (Fin 1) placeOrder
              (or_intror (or_intror (or_intror (or_introl eq_refl)))))
    as (Hstep & Hin & _).
  split; [exact Hstep | exact Hin].
Defined.

(** ** The e-mail validator, in full *)

Lemma not_space_at_no_space s :
  forallb not_space_at s = true -> existsb is_space s = false.
Proof.
  induction s as [|c s IH]; cbn; [reflexivity|].
  intros H. apply andb_true_iff in H as [Hc Hs]. rewrite (IH Hs), orb_false_r.
  unfold not_space_at in Hc. apply negb_true_iff, orb_false_iff in Hc. tauto.
Qed.

(** X19: the e-mail validator accepts exactly the strings of the form
    [a @ b . c] in which the three parts are not empty and hold neither
    white space nor "@"; further full stops are allowed anywhere in the
    parts. *)
Theorem validateEmail_iff_parts (s : jsstring) :
  validateEmail s = true <->
  exists a b c,
    s = a ++ at_sign :: b ++ full_stop :: c /\
    a <> [] /\ b <> [] /\ c <> [] /\
    forallb not_space_at (a ++ b ++ c) = true.
Proof.
  unfold validateEmail. rewrite test_anchored_spec. split.
  - intros H. apply matches_email_inv in H
      as (a & b & c & -> & [Hna Ha] & [Hnb Hb] & [Hnc Hc]).
    exists a, b, c. rewrite !forallb_app, Ha, Hb, Hc. auto.
  - intros (a & b & c & -> & Hna & Hnb & Hnc & Hall).
    rewrite !forallb_app in Hall.
    apply andb_true_iff in Hall as [Ha Hall].
    apply andb_true_iff in Hall as [Hb Hc].
    unfold re_email.
    constructor; [apply matches_plus_class; auto|].
    change (at_sign :: b ++ full_stop :: c) with ([at_sign] ++ b ++ [full_stop] ++ c).
    constructor; [constructor; apply N.eqb_refl|].
    constructor; [apply matches_plus_class; auto|].
    constructor; [constructor; apply N.eqb_refl|].
    apply matches_plus_class; auto.
Qed.

(** X20: an accepted e-mail address holds exactly one "@" and no white
    space, has five characters at least, and stays accepted when
    characters other than white space and "@" are added at its end (a
    closing full stop, for one). *)
Theorem validateEmail_accepted (s : jsstring) :
  validateEmail s = true ->
  count_occ N.eq_dec s at_sign = 1%nat /\
  existsb is_space s = false /\
  (5 <= length s)%nat /\
  forall t, forallb not_space_at t = true -> validateEmail (s ++ t) = true.
Proof.
  unfold validateEmail. rewrite test_anchored_spec. intros H.
  apply matches_email_inv in H
    as (a & b & c & -> & [Hna Ha] & [Hnb Hb] & [Hnc Hc]).
  split; [|split; [|split]].
  - rewrite (count_occ_elt_eq N.eq_dec a (b ++ full_stop :: c) eq_refl).
    f_equal. apply count_occ_not_In. intros Hin.
    apply in_app_or in Hin as [Hin|Hin]; [now apply (not_space_at_no_at a)|].
    apply in_app_or in Hin as [Hin|[Hin|Hin]].
    + now apply (not_space_at_no_at b).
    + discriminate Hin.
    + now apply (not_space_at_no_at c).
  - rewrite existsb_app. cbn [existsb]. rewrite existsb_app. cbn [existsb].
    now rewrite !not_space_at_no_space by assumption.
  - rewrite length_app. cbn [length]. rewrite length_app. cbn [length].
    destruct a; [congruence|]. destruct b; [congruence|]. destruct c; [congruence|].
    cbn [length]. lia.
  - intros t Ht. apply test_anchored_spec. unfold re_email.
    replace ((a ++ at_sign :: b ++ full_stop :: c) ++ t)
      with (a ++ [at_sign] ++ b ++ [full_stop] ++ (c ++ t))
      by (repeat (rewrite <- app_assoc; cbn [app]); reflexivity).
    constructor; [apply matches_plus_class; auto|].
    constructor; [constructor; apply N.eqb_refl|].
    constructor; [apply matches_plus_class; auto|].
    constructor; [constructor; apply N.eqb_refl|].
    apply matches_plus_class. split.
    + destruct c; [congruence | discriminate].
    + now rewrite forallb_app, Hc, Ht.
Qed.

Lemma validateEmail_accepted_witness :
  count_occ N.eq_dec (lit "ann@shop.example") at_sign = 1%nat /\
  validateEmail (lit "ann@shop.example" ++ lit ".") = true.
Proof.
  assert (H : validateEmail (lit "ann@shop.example") = true) by reflexivity.
  destruct (validateEmail_accepted (lit "ann@shop.example") H) as (Hone & _ & _ & Hmore).
  split; [exact Hone | apply Hmore; reflexivity].
Defined.

(** ** The price formatter, further *)

(** X21: below [10^21] a price is shown to the nearest cent, half cents
    going up: the digits after the currency symbol, read without their
    full stop, are the one integer within half a cent of a hundred times
    the price. *)
Theorem formatPrice_nearest_cent (x : Q) :
  binary64 x -> (0 <= x)%Q -> (x < 10 ^ 21)%Q ->
  exists a b,
    formatPrice (VNum (Fin x)) = lit "$" ++ a ++ lit "." ++ b /\
    a <> [] /\ forallb is_digit a = true /\ forallb is_digit b = true /\ len b = 2 /\
    let cents := inject_Z (digits_value 10 digit_value (a ++ b)) in
    (x * 100 - (1 # 2) < cents)%Q /\ (cents <= x * 100 + (1 # 2))%Q.
Proof.
  intros Hb Hpos Hsmall.
  rewrite (formatPrice_number x Hb Hpos), (toFixed2_small x Hpos Hsmall).
  destruct (fixed_digits_shape _ (hundredths_nonneg x Hpos))
    as (a & b & -> & Ha & Hda & Hdb & Hlb & Hv).
  exists a, b. repeat split; auto; cbv zeta; rewrite Hv; unfold hundredths.
  - pose proof (Qlt_floor (x * 100 + (1 # 2))) as H.
    rewrite inject_Z_plus in H. change (inject_Z 1) with 1%Q in H. lra.
  - apply Qfloor_le.
Qed.

Lemma binary64_five_eighths : binary64 (5 # 8).
Proof. exists 5, 1071. repeat split; try lia. Qed.

Lemma formatPrice_nearest_cent_witness :
  exists a b, formatPrice (VNum (Fin (5 # 8))) = lit "$" ++ a ++ lit "." ++ b /\
              digits_value 10 digit_value (a ++ b) = 63.
Proof.
  assert (Hpos : (0 <= 5 # 8)%Q) by (unfold Qle; simpl; lia).
  assert (Hlt : (5 # 8 < 10 ^ 21)%Q) by reflexivity.
  destruct (formatPrice_nearest_cent (5 # 8) binary64_five_eighths Hpos Hlt)
    as (a & b & Heq & _ & _ & _ & _ & Hlo & Hhi).
  exists a, b. split; [exact Heq|].
  set (n := digits_value 10 digit_value (a ++ b)) in *. clearbody n.
  assert (H1 : (inject_Z 62 < inject_Z n)%Q).
  { eapply Qle_lt_trans; [|exact Hlo]. unfold Qle; simpl; lia. }
  assert (H2 : (inject_Z n <= inject_Z 63)%Q).
  { eapply Qle_trans; [exact Hhi|]. unfold Qle; simpl; lia. }
  rewrite <- Zlt_Qlt in H1. rewrite <- Zle_Qle in H2. lia.
Defined.

(** X22: what is no number comes out as "$NaN": undefined, null, a
    boolean, an object, an empty array, every string with no numeral at
    its head, and with them every formatted price, whose head is the
    currency symbol. *)
Theorem formatPrice_not_a_number :
  (forall s, no_numeral s = true -> formatPrice (VStr s) = lit "$NaN") /\
  (forall price, formatPrice (VStr (formatPrice price)) = lit "$NaN") /\
  formatPrice VUndef = lit "$NaN" /\ formatPrice VNull = lit "$NaN" /\
  (forall b, formatPrice (VBool b) = lit "$NaN") /\
  (forall fields, formatPrice (VObj fields) = lit "$NaN") /\
  formatPrice (VArr []) = lit "$NaN".
Proof.
  assert (Hs : forall s, no_numeral s = true -> formatPrice (VStr s) = lit "$NaN").
  { intros s H. unfold formatPrice, parseFloat. cbn [to_string].
    unfold parseFloat_str, no_numeral in *.
    destruct (trim_start s) as [|c t]; [reflexivity|].
    apply negb_true_iff in H.
    apply orb_false_iff in H as [H HI]. apply orb_false_iff in H as [H Hdot].
    apply orb_false_iff in H as [H Hminus]. apply orb_false_iff in H as [Hdig Hplus].
    unfold strip_sign. rewrite Hminus, Hplus.
    change (lit "Infinity") with (73%N :: lit "nfinity").
    cbn [starts_with]. rewrite (N.eqb_sym 73 c), HI. cbn [andb].
    unfold unsigned_literal. cbn [take_while]. rewrite Hdig.
    cbn [length skipn]. unfold fraction_part. rewrite Hdot. reflexivity. }
  split; [exact Hs|].
  split; [intros price; apply Hs; reflexivity|].
  repeat split; try reflexivity.
  intros []; reflexivity.
Qed.

(** X23: formatting the text of a formatted price (without its currency
    symbol) gives the same price again, for every binary64 [x >= 0]. *)
Theorem formatPrice_of_its_text (x : Q) :
  binary64 x -> (0 <= x)%Q ->
  formatPrice (VStr (numeric_part (formatPrice (VNum (Fin x)))))
  = formatPrice (VNum (Fin x)).
Proof.
  intros Hb Hpos. rewrite (formatPrice_number x Hb Hpos).
  change (numeric_part (lit "$" ++ toFixed2 (Fin x))) with (toFixed2 (Fin x)).
  unfold formatPrice at 1, parseFloat. cbn [to_string]. f_equal.
  destruct (Qlt_le_dec x (10 ^ 21)) as [Hsmall|Hlarge].
  - rewrite (toFixed2_small x Hpos Hsmall).
    rewrite (parseFloat_fixed_digits _ (hundredths_nonneg x Hpos)).
    destruct (reparse_same_hundredths x Hb Hpos Hsmall)
      as (d & -> & _ & Hd0 & Hd21 & _ & Hh).
    now rewrite (toFixed2_small d Hd0 Hd21), Hh.
  - rewrite (toFixed2_large x Hlarge), (parseFloat_number_to_string x Hb Hpos).
    now rewrite toFixed2_Qred, (toFixed2_large x Hlarge).
Qed.

Lemma formatPrice_of_its_text_witness :
  formatPrice (VStr (numeric_part (formatPrice (VNum (Fin (5 # 8))))))
  = formatPrice (VNum (Fin (5 # 8))).
Proof.
  assert (Hpos : (0 <= 5 # 8)%Q) by (unfold Qle; simpl; lia).
  exact (formatPrice_of_its_text (5 # 8) binary64_five_eighths Hpos).
Defined.

(** *** Prices below zero *)

Lemma format_number_head n k s :
  1 <= k -> 10 ^ (k - 1) <= s < 10 ^ k ->
  head_is_digit (format_number (n, k, s)) = true.
Proof.
  intros Hk Hs.
  assert (Hs0 : 0 <= s).
  { pose proof (Z.pow_pos_nonneg 10 (k - 1) ltac:(lia) ltac:(lia)). lia. }
  pose proof (decimal_digits s Hs0) as Hd.
  pose proof (decimal_nonempty s Hs0) as Hne.
  unfold format_number.
  destruct (decimal s) as [|c ds]; [congruence|].
  cbn [forallb] in Hd. apply andb_true_iff in Hd as [Hc _].
  destruct ((k <=? n) && (n <=? 21)); [exact Hc|].
  destruct ((0 <? n) && (n <=? 21)) eqn:Cb.
  { apply andb_true_iff in Cb as [Hn0 _]. apply Z.ltb_lt in Hn0.
    destruct (Z.to_nat n) eqn:E; [lia | exact Hc]. }
  destruct ((-6 <? n) && (n <=? 0)); [reflexivity|].
  destruct (k =? 1); exact Hc.
Qed.

Lemma number_to_string_head x :
  binary64 x -> (0 < x)%Q -> head_is_digit (number_to_string (Fin x)) = true.
Proof.
  intros Hb Hpos. unfold number_to_string. cbv zeta.
  pose proof (Qred_correct x) as Hq. set (q := Qred x) in *. clearbody q.
  assert (Hqpos : (0 < q)%Q) by now rewrite Hq.
  assert (Hz : Qeq_bool q 0 = false).
  { destruct (Qeq_bool q 0) eqn:E; [|reflexivity].
    apply Qeq_bool_iff in E. rewrite E in Hqpos. now apply Qlt_irrefl in Hqpos. }
  rewrite Hz, (Qltb_false_nonneg q (Qlt_le_weak _ _ Hqpos)). cbn [app].
  assert (Hxa : (Qabs q == x)%Q) by (rewrite Qabs_pos; [exact Hq | now apply Qlt_le_weak]).
  set (xa := Qabs q) in *. clearbody xa.
  assert (Hba : binary64 xa) by (apply (binary64_comp x); [now symmetry | exact Hb]).
  assert (Hpa : (0 < xa)%Q) by (now rewrite Hxa).
  destruct (exact_candidate_ok xa Hba Hpa) as [HK Hex].
  set (n0 := decimal_exponent xa) in *. clearbody n0.
  destruct (shortest_ok (Z.to_nat (n0 + 1074)) xa n0 1 ltac:(lia)) as [Hk Hok].
  { exists (n0 + 1074 - 1). split; [lia|].
    now replace (1 + (n0 + 1074 - 1)) with (n0 + 1074) by lia. }
  destruct (shortest (Z.to_nat (n0 + 1074)) xa n0 1) as [[n k] s].
  cbn [fst snd] in Hk.
  exact (format_number_head n k s Hk (candidate_ok_digits xa n k s Hok)).
Qed.

Lemma round_double_opp q d :
  round_double q = Fin d -> round_double (- q) = Fin (Qred (- d)).
Proof.
  unfold round_double. cbv zeta. rewrite Qred_opp.
  destruct (Qred q) as [n den]. cbn [Qopp Qnum Qden].
  rewrite Z.abs_opp, Z.sgn_opp.
  destruct (2 ^ 2098 <=? nearest_scaled (Z.abs n) (Z.pos den)); [discriminate|].
  intros H. injection H as <-. f_equal.
  rewrite Qred_opp, Qcanon.Qred_involutive, <- Qred_opp. apply Qred_complete.
  unfold Qeq. cbn [Qopp Qnum Qden]. f_equal. lia.
Qed.

Lemma parseFloat_str_minus s d :
  head_is_digit s = true -> parseFloat_str s = Fin d ->
  parseFloat_str (lit "-" ++ s) = Fin (Qred (- d)).
Proof.
  destruct s as [|c s]; [discriminate|]. cbn [head_is_digit]. intros Hc.
  rewrite (parseFloat_str_digit c s Hc).
  destruct (digit_not_special c Hc) as (_ & _ & _ & _ & HI).
  change (lit "-" ++ c :: s) with (minus_sign :: c :: s).
  unfold parseFloat_str, trim_start. cbn [drop_while].
  change (is_space minus_sign) with false. cbv iota.
  unfold strip_sign. rewrite N.eqb_refl.
  change (lit "Infinity") with (73%N :: lit "nfinity").
  cbn [starts_with]. rewrite HI. cbn [andb].
  destruct (unsigned_literal (c :: s)) as [mv|]; [|discriminate].
  apply round_double_opp.
Qed.

Lemma Qabs_opp_eq q : Qabs (- q) = Qabs q.
Proof. destruct q as [n d]. unfold Qabs, Qopp. now rewrite Z.abs_opp. Qed.

Lemma Qltb_opp_pos q : (0 < q)%Q -> Qltb (- q) 0 = true /\ Qeq_bool (- q) 0 = false.
Proof.
  intros H. split.
  - unfold Qltb. apply negb_true_iff.
    destruct (Qle_bool 0 (- q)) eqn:E; [|reflexivity].
    apply Qle_bool_iff in E. lra.
  - destruct (Qeq_bool (- q) 0) eqn:E; [|reflexivity].
    apply Qeq_bool_iff in E. lra.
Qed.

Lemma number_to_string_opp x :
  (0 < x)%Q -> number_to_string (Fin (- x)) = lit "-" ++ number_to_string (Fin x).
Proof.
  intros Hpos. unfold number_to_string. cbv zeta. rewrite Qred_opp.
  pose proof (Qred_correct x) as Hq. set (q := Qred x) in *. clearbody q.
  assert (Hqpos : (0 < q)%Q) by now rewrite Hq.
  destruct (Qltb_opp_pos q Hqpos) as [-> ->].
  rewrite Qabs_opp_eq, (Qltb_false_nonneg q (Qlt_le_weak _ _ Hqpos)).
  destruct (Qeq_bool q 0) eqn:E; [|reflexivity].
  apply Qeq_bool_iff in E. rewrite E in Hqpos. now apply Qlt_irrefl in Hqpos.
Qed.

Lemma toFixed2_opp x :
  (0 < x)%Q -> toFixed2 (Fin (- x)) = lit "-" ++ toFixed2 (Fin x).
Proof.
  intros Hpos. unfold toFixed2. cbv zeta. rewrite Qred_opp.
  pose proof (Qred_correct x) as Hq. set (q := Qred x) in *. clearbody q.
  assert (Hqpos : (0 < q)%Q) by now rewrite Hq.
  destruct (Qltb_opp_pos q Hqpos) as [-> _].
  rewrite Qabs_opp_eq, (Qltb_false_nonneg q (Qlt_le_weak _ _ Hqpos)).
  destruct (Qle_bool (10 ^ 21) (Qabs q)); reflexivity.
Qed.

(** X24: a price below zero is shown with its sign after the currency
    symbol: for a binary64 [x > 0], formatting [-x] gives "$-" followed by
    the digits of the formatted [x] (so "$-0.00" for an amount under half
    a cent). *)
Theorem formatPrice_negative (x : Q) :
  binary64 x -> (0 < x)%Q ->
  formatPrice (VNum (Fin (- x)))
  = lit "$-" ++ numeric_part (formatPrice (VNum (Fin x))).
Proof.
  intros Hb Hpos.
  rewrite (formatPrice_number x Hb (Qlt_le_weak _ _ Hpos)).
  change (numeric_part (lit "$" ++ toFixed2 (Fin x))) with (toFixed2 (Fin x)).
  unfold formatPrice, parseFloat. cbn [to_string].
  rewrite (number_to_string_opp x Hpos).
  rewrite (parseFloat_str_minus _ (Qred x) (number_to_string_head x Hb Hpos)
             (parseFloat_number_to_string x Hb (Qlt_le_weak _ _ Hpos))).
  rewrite toFixed2_Qred.
  assert (Hq : (0 < Qred x)%Q) by now rewrite Qred_correct.
  now rewrite (toFixed2_opp _ Hq), toFixed2_Qred.
Qed.

Lemma binary64_1_1024 : binary64 (1 # 1024).
Proof. exists 1, 1064. repeat split; try lia. Qed.

Lemma formatPrice_negative_witness :
  formatPrice (VNum (Fin (- (1 # 1024)))) = lit "$-0.00".
Proof.
  assert (Hpos : (0 < 1 # 1024)%Q) by reflexivity.
  rewrite (formatPrice_negative (1 # 1024) binary64_1_1024 Hpos).
  vm_compute. reflexivity.
Defined.
